(** * The trading bot of packages/plugin-trading/python_trading

    A shallow embedding of [config.py], [nice_funcs.py] and [ezbot.py]:
    the position-execution loop [bot], the scheduler loop that re-invokes
    it, and [token_overview].

    Python floats are IEEE binary64 numbers, that is Rocq's primitive
    [float]; Python ints are [Z]; [time.sleep] and the calls into the
    helper module [nice_funcs] are recorded, in order, in an event log. *)

From Stdlib Require Import ZArith List String Ascii Bool Lia.
From Stdlib Require Import Floats DecimalString Uint63.
Import ListNotations.

Set Warnings "-inexact-float,-register-all".
Set Implicit Arguments.

Local Open Scope string_scope.
Local Open Scope Z_scope.

(** ** Python values and exceptions *)

(** The exceptions the modelled code can meet.  [Remote] stands for any
    exception raised inside a network call (HTTP error, time-out, venue
    rejection). *)
Inductive exn : Type :=
| AttributeError (obj attr : string)
| NameError (name : string)
| ValueError
| OverflowError
| TypeError
| ZeroDivisionError
| JSONDecodeError
| Remote (what : string).

(** The values the variable [chunk_size] of [bot] takes: the float it is
    computed as, the int of [int(chunk_size * 10**6)], the string of
    [str(chunk_size)]. *)
Inductive pyval : Type :=
| VFloat (f : float)
| VInt (i : Z)
| VStr (s : string).

(** Python's float comparisons [x < y] and [x > y]: IEEE comparisons, false
    whenever an operand is NaN. *)
Definition flt (x y : float) : bool := PrimFloat.ltb x y.
Definition fgt (x y : float) : bool := PrimFloat.ltb y x.
Definition fle (x y : float) : bool := PrimFloat.leb x y.

(** [int(x)] on a float: truncation toward zero; [ValueError] on NaN,
    [OverflowError] on an infinity. *)
Definition py_int (x : float) : exn + Z :=
  match Prim2SF x with
  | S754_nan => inl ValueError
  | S754_infinity _ => inl OverflowError
  | S754_zero _ => inr 0
  | S754_finite sgn m e =>
      let mag := if 0 <=? e then Z.shiftl (Zpos m) e
                 else Z.shiftr (Zpos m) (- e) in
      inr (if sgn then - mag else mag)
  end.

(** [str(i)] on an int: its decimal numeral. *)
Definition py_str (i : Z) : string := NilEmpty.string_of_int (Z.to_int i).

(** [s[-4:]]: the last four characters (all of [s] when it is shorter). *)
Definition last4 (s : string) : string :=
  substring (String.length s - 4)%nat 4 s.

(** ** config.py *)

Record config : Type := {
  symbol : string;
  usd_size : float;            (* the size of the position we want to hold *)
  max_usd_order_size : float;  (* the max size of the order we can send *)
  tx_sleep : Z;                (* the sleep time between transactions *)
  slippage : Z;
  orders_per_open : nat;       (* we can send multiple *)
  buy_under : float;
  sell_over : float
}.

Definition config_py : config := {|
  symbol := "9BB6NFEcjBCtnNLFko2FqVQBq8HHM13kCyYcdQbgpump";
  usd_size := 5%float;
  max_usd_order_size := 1%float;
  tx_sleep := 30;
  slippage := 199;
  orders_per_open := 3;
  buy_under := 0.0946%float;
  sell_over := 1%float
|}.

(** The names [config.py] binds at module level, in source order. *)
Definition config_names : list string :=
  [ "symbol"; "address"; "usd_size"; "max_usd_order_size"; "tx_sleep";
    "slippage"; "PRIORITY_FEE"; "orders_per_open"; "buy_under"; "sell_over";
    "STOPLOSS_PRICE"; "BREAKOUT_PRICE"; "SLEEP_AFTER_CLOSE";
    "DAYSBACK_4_DATA"; "DATA_TIMEFRAME"; "sell_at_multiple"; "USDC_SIZE";
    "limit"; "timeframe"; "stop_loss_perctentage"; "tokens_to_trade";
    "EXIT_ALL_POSITIONS"; "DO_NOT_TRADE_LIST"; "CLOSED_POSITIONS_TXT";
    "minimum_trades_in_last_hour" ].

(** ** The namespace of nice_funcs.py *)

(** Attributes every module object has. *)
Definition module_dunders : list string :=
  [ "__name__"; "__doc__"; "__package__"; "__loader__"; "__spec__";
    "__file__"; "__cached__"; "__builtins__" ].

(** The names [nice_funcs.py] binds at module level: [from config import *],
    its imports, its three constants and its seven functions. *)
Definition nice_funcs_names : list string :=
  module_dunders ++ config_names ++
  [ "requests"; "pd"; "pprint"; "reggie"; "sys"; "os"; "time"; "json";
    "np"; "datetime"; "ta"; "timedelta"; "colored"; "cprint"; "solders";
    "d"; "API_KEY"; "sample_address"; "BASE_URL";
    "print_pretty_json"; "find_urls"; "token_overview";
    "token_security_info"; "token_creation_info"; "market_buy";
    "market_sell" ].

(** The names of Python's builtins module that a global lookup falls back
    to. *)
Definition builtin_names : list string :=
  [ "abs"; "all"; "any"; "ascii"; "bin"; "bool"; "breakpoint"; "bytearray";
    "bytes"; "callable"; "chr"; "classmethod"; "compile"; "complex";
    "delattr"; "dict"; "dir"; "divmod"; "enumerate"; "eval"; "exec";
    "filter"; "float"; "format"; "frozenset"; "getattr"; "globals";
    "hasattr"; "hash"; "help"; "hex"; "id"; "input"; "int"; "isinstance";
    "issubclass"; "iter"; "len"; "list"; "locals"; "map"; "max";
    "memoryview"; "min"; "next"; "object"; "oct"; "open"; "ord"; "pow";
    "print"; "property"; "range"; "repr"; "reversed"; "round"; "set";
    "setattr"; "slice"; "sorted"; "staticmethod"; "str"; "sum"; "super";
    "tuple"; "type"; "vars"; "zip"; "True"; "False"; "None"; "Exception";
    "NameError"; "AttributeError"; "ValueError"; "TypeError";
    "OverflowError"; "ZeroDivisionError"; "KeyError"; "KeyboardInterrupt" ].

Definition binds (names : list string) (name : string) : bool :=
  existsb (String.eqb name) names.

(** Reading the global [name] inside a module whose globals are [names]. *)
Definition load_global (names : list string) (name : string) : exn + unit :=
  if binds names name || binds builtin_names name then inr tt
  else inl (NameError name).

(** ** Events, state and the execution monad *)

(** What one run does to the outside, in order.  A helper call is logged
    with its arguments and with what it returned or raised. *)
Inductive event : Type :=
| Print (text : string) (args : list pyval)
| Sleep (secs : Z)
| GetPosition (sym : string) (r : exn + float)
| TokenPrice (sym : string) (r : exn + float)
| MarketBuy (sym : string) (amount : pyval) (slip : Z) (r : exn + unit)
| ChunkKill (sym : string) (size : float) (slip : Z) (r : exn + unit)
| ElegantEntry (sym : string) (limit : float) (r : exn + unit).

(** The local variables of [bot]. *)
Record frame : Type := {
  pos : float;
  price : float;
  pos_usd : float;
  size_needed : float;
  chunk_size : pyval
}.

(** How a statement ends: normally, by [break], by an exception, or not
    within the iterations granted to its loops. *)
Inductive outcome (A : Type) : Type :=
| Ok (a : A)
| Break
| Raise (e : exn)
| Timeout.

Arguments Ok {A} a.
Arguments Break {A}.
Arguments Raise {A} e.
Arguments Timeout {A}.

(** The orders among the events, and the seconds slept. *)
Definition is_order (ev : event) : bool :=
  match ev with
  | MarketBuy _ _ _ _ | ChunkKill _ _ _ _ | ElegantEntry _ _ _ => true
  | _ => false
  end.

Definition is_buy (ev : event) : bool :=
  match ev with MarketBuy _ _ _ _ => true | _ => false end.

Definition orders (l : list event) : list event := filter is_order l.

Definition buys (l : list event) : list event := filter is_buy l.

Fixpoint elapsed (l : list event) : Z :=
  match l with
  | [] => 0
  | Sleep secs :: l' => secs + elapsed l'
  | _ :: l' => elapsed l'
  end.

Section Engine.

(** The remote services behind the helper module: [W] is their state. *)
Context {W : Type}.

Definition call (A : Type) : Type := W -> (exn + A) * W.

(** The functions [ezbot.py] calls on [nice_funcs]. *)
Record helpers : Type := {
  get_position : string -> call float;
  token_price : string -> call float;
  market_buy : string -> pyval -> Z -> call unit;
  chunk_kill : string -> float -> Z -> call unit;
  elegant_entry : string -> float -> call unit
}.

(** A module object: the attribute names it binds, and how the helper
    functions among them behave. *)
Record pymodule : Type := {
  names : list string;
  impl : helpers
}.

(** [next_run] is the time the job registered with [schedule] is due; the
    clock is the number of seconds slept so far. *)
Record state : Type := {
  world : W;
  vars : frame;
  log : list event;
  next_run : Z
}.

Definition now (s : state) : Z := elapsed (log s).

Definition M (A : Type) : Type := state -> outcome A * state.

Definition ret {A} (a : A) : M A := fun s => (Ok a, s).

Definition bind {A B} (m : M A) (k : A -> M B) : M B :=
  fun s =>
    match m s with
    | (Ok a, s') => k a s'
    | (Break, s') => (Break, s')
    | (Raise e, s') => (Raise e, s')
    | (Timeout, s') => (Timeout, s')
    end.

Notation "x <- m ;; k" := (bind m (fun x => k))
  (at level 61, m at next level, right associativity).
Notation "m ;; k" := (bind m (fun _ => k))
  (at level 61, right associativity).

Definition raise {A} (e : exn) : M A := fun s => (Raise e, s).

Definition break : M unit := fun s => (Break, s).

Definition lift {A} (r : exn + A) : M A :=
  match r with inl e => raise e | inr a => ret a end.

(** [try: m  except: h] with a bare [except], which catches every
    exception; [break] passes through it. *)
Definition try_except {A} (m h : M A) : M A :=
  fun s =>
    match m s with
    | (Raise _, s') => h s'
    | r => r
    end.

(** [while c: body], run for at most [fuel] tests of [c]. *)
Fixpoint while (fuel : nat) (c : state -> bool) (body : M unit) : M unit :=
  fun s =>
    match fuel with
    | O => (Timeout, s)
    | S fuel' =>
        if c s then
          match body s with
          | (Ok _, s') => while fuel' c body s'
          | (Break, s') => (Ok tt, s')
          | (Raise e, s') => (Raise e, s')
          | (Timeout, s') => (Timeout, s')
          end
        else (Ok tt, s)
    end.

(** [while c: body  else: orelse]: [orelse] runs when [c] turns false. *)
Fixpoint while_else (fuel : nat) (c : state -> bool) (body orelse : M unit)
  : M unit :=
  fun s =>
    match fuel with
    | O => (Timeout, s)
    | S fuel' =>
        if c s then
          match body s with
          | (Ok _, s') => while_else fuel' c body orelse s'
          | (Break, s') => (Ok tt, s')
          | (Raise e, s') => (Raise e, s')
          | (Timeout, s') => (Timeout, s')
          end
        else orelse s
    end.

(** [for i in range(k): body] *)
Fixpoint for_range (k : nat) (body : M unit) : M unit :=
  match k with
  | O => ret tt
  | S k' => body ;; for_range k' body
  end.

Definition when (c : state -> bool) (m : M unit) : M unit :=
  fun s => if c s then m s else (Ok tt, s).

Definition emit (ev : event) (s : state) : state :=
  {| world := world s; vars := vars s; log := log s ++ [ev];
     next_run := next_run s |}.

Definition print (text : string) (args : list pyval) : M unit :=
  fun s => (Ok tt, emit (Print text args) s).

(** [time.sleep(secs)]; a negative length is a [ValueError]. *)
Definition sleep (secs : Z) : M unit :=
  fun s => if secs <? 0 then (Raise ValueError, s)
           else (Ok tt, emit (Sleep secs) s).

Definition assign (f : frame -> frame) : M unit :=
  fun s => (Ok tt, {| world := world s; vars := f (vars s); log := log s;
                      next_run := next_run s |}).

Definition set_pos (v : float) : M unit :=
  assign (fun fr => {| pos := v; price := price fr; pos_usd := pos_usd fr;
                       size_needed := size_needed fr;
                       chunk_size := chunk_size fr |}).

Definition set_price (v : float) : M unit :=
  assign (fun fr => {| pos := pos fr; price := v; pos_usd := pos_usd fr;
                       size_needed := size_needed fr;
                       chunk_size := chunk_size fr |}).

Definition set_pos_usd (v : float) : M unit :=
  assign (fun fr => {| pos := pos fr; price := price fr; pos_usd := v;
                       size_needed := size_needed fr;
                       chunk_size := chunk_size fr |}).

Definition set_size_needed (v : float) : M unit :=
  assign (fun fr => {| pos := pos fr; price := price fr;
                       pos_usd := pos_usd fr; size_needed := v;
                       chunk_size := chunk_size fr |}).

Definition set_chunk_size (v : pyval) : M unit :=
  assign (fun fr => {| pos := pos fr; price := price fr;
                       pos_usd := pos_usd fr;
                       size_needed := size_needed fr; chunk_size := v |}).

Definition read {A} (f : frame -> A) : M A := fun s => (Ok (f (vars s)), s).

(** A call [n.name(args)]: the attribute lookup raises [AttributeError]
    when the module does not bind [name]; otherwise the service is called,
    the call is logged, and its exception, if any, is raised here. *)
Definition invoke {A} (n : pymodule) (name : string) (f : call A)
    (ev : exn + A -> event) : M A :=
  fun s =>
    if binds (names n) name then
      let (r, w) := f (world s) in
      let s' := {| world := w; vars := vars s; log := log s ++ [ev r];
                   next_run := next_run s |} in
      match r with
      | inl e => (Raise e, s')
      | inr a => (Ok a, s')
      end
    else (Raise (AttributeError "nice_funcs" name), s).

(** ** ezbot.py *)

Variable cfg : config.
Variable n : pymodule.     (* import nice_funcs as n *)
Variable buy : Z.          (* buy = int(input(...)) *)

Definition n_get_position (sym : string) : M float :=
  invoke n "get_position" (get_position (impl n) sym) (GetPosition sym).

Definition n_token_price (sym : string) : M float :=
  invoke n "token_price" (token_price (impl n) sym) (TokenPrice sym).

Definition n_market_buy (sym : string) (amount : pyval) (slip : Z) : M unit :=
  invoke n "market_buy" (market_buy (impl n) sym amount slip)
         (MarketBuy sym amount slip).

Definition n_chunk_kill (sym : string) (size : float) (slip : Z) : M unit :=
  invoke n "chunk_kill" (chunk_kill (impl n) sym size slip)
         (ChunkKill sym size slip).

Definition n_elegant_entry (sym : string) (limit : float) : M unit :=
  invoke n "elegant_entry" (elegant_entry (impl n) sym limit)
         (ElegantEntry sym limit).

(** [pos = n.get_position(symbol)] *)
Definition fetch_pos : M unit :=
  p <- n_get_position (symbol cfg) ;; set_pos p.

(** [pos = n.get_position(symbol); price = n.token_price(symbol)] *)
Definition fetch : M unit :=
  fetch_pos ;;
  q <- n_token_price (symbol cfg) ;; set_price q.

(** The chunk a gap of [needed] is bought in:
    [if size_needed > max_usd_order_size: chunk_size = max_usd_order_size
     else: chunk_size = size_needed] *)
Definition chunk_for (needed : float) : float :=
  if fgt needed (max_usd_order_size cfg) then max_usd_order_size cfg
  else needed.

(** [pos_usd = pos * price] down to [chunk_size = str(chunk_size)] *)
Definition size_chunk : M unit :=
  p <- read pos ;; q <- read price ;;
  set_pos_usd (p * q)%float ;;
  v <- read pos_usd ;;
  set_size_needed (usd_size cfg - v)%float ;;
  needed <- read size_needed ;;
  set_chunk_size (VFloat (chunk_for needed)) ;;
  i <- lift (py_int (chunk_for needed * 1000000)%float) ;;
  set_chunk_size (VInt i) ;;
  set_chunk_size (VStr (py_str i)).

(** The block the source repeats at lines 57-65, 85-92, 106-113, 122-129,
    143-151 and 165-173: read position and price, size the next chunk. *)
Definition refresh : M unit := fetch ;; size_chunk.

(** [.97 * usd_size] *)
Definition filled_level : float := (0.97 * usd_size cfg)%float.

(** *** buy == 0: close the position *)

Definition kill_round : M unit :=
  n_chunk_kill (symbol cfg) (max_usd_order_size cfg) (slippage cfg) ;;
  fetch_pos ;;
  sleep 1.

Definition close_body (fuel : nat) : M unit :=
  print "closing position" [] ;;
  fetch_pos ;;
  while fuel (fun s => fgt (pos (vars s)) 0%float) kill_round ;;
  when (fun s => flt (pos (vars s)) 0.9%float)
    (sleep 15 ;;
     fetch_pos ;;
     when (fun s => flt (pos (vars s)) 0.9%float)
       (print "position closed thanks moon dev...." [] ;;
        sleep 876786 ;;
        break)).

(** *** buy == 1: open a buying position *)

(** [for i in range(orders_per_open): n.market_buy(...); cprint(...);
    time.sleep(1)] *)
Definition submit_replicas : M unit :=
  for_range (orders_per_open cfg)
    (c <- read chunk_size ;;
     n_market_buy (symbol cfg) c (slippage cfg) ;;
     print "chunk buy submitted of {} sz: {} you my dawg moon dev"
           [VStr (last4 (symbol cfg)); c] ;;
     sleep 1).

(** The body of the outer [try] (lines 77-92). *)
Definition attempt : M unit :=
  submit_replicas ;; sleep (tx_sleep cfg) ;; refresh.

(** The body of the inner [try] (lines 97-113). *)
Definition retry : M unit :=
  print "trying again to make the order in 30 seconds....." [] ;;
  sleep 30 ;;
  attempt.

(** The inner [except] (lines 117-119). *)
Definition give_up_buy : M unit :=
  print "Final Error in the buy, restart needed" [] ;;
  sleep 10 ;;
  break.

(** The [try] statement of lines 75-119. *)
Definition buy_step : M unit :=
  try_except attempt (try_except retry give_up_buy).

(** The body of [while pos_usd < (.97 * usd_size)] (lines 73-129). *)
Definition buy_round : M unit :=
  p <- read pos ;; q <- read price ;; v <- read pos_usd ;;
  print "position: {} price: {} buy_under: {} pos_usd: ${}"
        [VFloat p; VFloat q; VFloat (buy_under cfg); VFloat v] ;;
  buy_step ;;
  sleep 3 ;;
  refresh.

(** [while pos_usd < (.97 * usd_size): ...] (lines 71-129) *)
Definition buy_loop (fuel : nat) : M unit :=
  while fuel (fun s => flt (pos_usd (vars s)) filled_level) buy_round.

(** What follows the buy loop (lines 133-134). *)
Definition report_filled : M unit :=
  v <- read pos_usd ;;
  print "position filled of {} total: ${}"
        [VStr (last4 (symbol cfg)); VFloat v] ;;
  break.

Definition open_body (fuel : nat) : M unit :=
  print "opening buying position" [] ;;
  refresh ;;
  when (fun s => fgt (pos_usd (vars s)) filled_level)
    (print "position filled" [] ;;
     sleep 7867678) ;;
  buy_loop fuel ;;
  report_filled.

(** *** buy == 5: market maker above or below *)

Definition mm_sell : M unit :=
  q <- read price ;;
  print "selling {} bc price is {} and sell over is {}"
        [VStr (last4 (symbol cfg)); VFloat q; VFloat (sell_over cfg)] ;;
  n_chunk_kill (symbol cfg) (max_usd_order_size cfg) (slippage cfg) ;;
  print "chunk kill complete... thank you moon dev you are my savior 777" [] ;;
  sleep 15.

Definition wants_buy (s : state) : bool :=
  flt (pos_usd (vars s)) (usd_size cfg) && flt (price (vars s)) (buy_under cfg).

Definition mm_buy : M unit :=
  sleep 10 ;;
  refresh ;;
  when wants_buy
    (q <- read price ;;
     print "buying {} bc price is {} and buy under is {}"
           [VStr (last4 (symbol cfg)); VFloat q; VFloat (buy_under cfg)] ;;
     n_elegant_entry (symbol cfg) (buy_under cfg) ;;
     print "elegant entry complete..." [] ;;
     sleep 15).

Definition mm_idle : M unit :=
  q <- read price ;; v <- read pos_usd ;;
  print "price is {} and not buying or selling position is {} and usd size is {}"
        [VFloat q; VFloat v; VFloat (usd_size cfg)] ;;
  sleep 30.

(** [if price > sell_over: ... elif (price < buy_under) and
    (pos_usd < usd_size): ... else: ...] *)
Definition mm_decide : M unit :=
  fun s =>
    if fgt (price (vars s)) (sell_over cfg) then mm_sell s
    else if flt (price (vars s)) (buy_under cfg)
            && flt (pos_usd (vars s)) (usd_size cfg) then mm_buy s
    else mm_idle s.

Definition mm_body : M unit :=
  print "market maker buying below {} and selling above {}"
        [VFloat (buy_under cfg); VFloat (sell_over cfg)] ;;
  refresh ;;
  mm_decide.

(** *** def bot() *)

Definition bot (fuel : nat) : M unit :=
  while fuel (fun _ => buy =? 0) (close_body fuel) ;;
  print "bot successfully closed position..." [] ;;
  while fuel (fun _ => buy =? 1) (open_body fuel) ;;
  while fuel (fun _ => buy =? 4) (print "pnl close" []) ;;
  while fuel (fun _ => buy =? 5) mm_body ;;
  while fuel (fun _ => buy =? 6) (print "funding buy" []) ;;
  while_else fuel (fun _ => buy =? 7)
    (print "liquidation amount" [])
    (print "COMPLETE THANKS MOON DEV!" []).

(** *** The scheduler: [schedule.every(30).seconds.do(bot)] and the
    [while True] loop *)

(** [schedule.every(30).seconds.do(bot)]: the job is first due 30 seconds
    from now. *)
Definition schedule_every (secs : Z) : M unit :=
  fun s => (Ok tt, {| world := world s; vars := vars s; log := log s;
                      next_run := now s + secs |}).

(** [schedule.run_pending()]: a due job is run, and only when it returns
    is its next run set. *)
Definition run_pending (fuel : nat) : M unit :=
  fun s =>
    if next_run s <=? now s then (bot fuel ;; schedule_every 30) s
    else (Ok tt, s).

(** The body of [while True] (lines 200-205). *)
Definition tick (fuel : nat) : M unit :=
  try_except
    (run_pending fuel ;; sleep 3)
    (print "*** error, sleeping" [] ;; sleep 15).

Definition scheduler (fuel : nat) : M unit :=
  while fuel (fun _ => true) (tick fuel).

(** The script from line 195 on. *)
Definition main (fuel : nat) : M unit :=
  bot fuel ;;
  schedule_every 30 ;;
  scheduler fuel.

End Engine.

Arguments helpers W : clear implicits.
Arguments pymodule W : clear implicits.
Arguments state W : clear implicits.
Arguments M W A : clear implicits.

(** ** nice_funcs.py as [ezbot.py] imports it *)

(** The module object [n] of the source: it binds [nice_funcs_names] and
    nothing else, whatever the remote services [remote] would do. *)
Definition nice_funcs {W : Type} (remote : helpers W) : pymodule W :=
  {| names := nice_funcs_names; impl := remote |}.

(** ** A test venue *)

(** Holdings of the traded token and the number of helper calls served. *)
Record venue_state : Type := {
  held : float;
  calls : nat
}.

(** One helper call: it raises when the venue is [down] at this call,
    and otherwise answers [a] and leaves holdings [h]. *)
Definition served {A} (down : nat -> bool) (what : string)
    (f : float -> option (A * float)) : call (W := venue_state) A :=
  fun w =>
    let w' h := {| held := h; calls := S (calls w) |} in
    if down (calls w) then (inl (Remote what), w' (held w))
    else match f (held w) with
         | Some (a, h) => (inr a, w' h)
         | None => (inl (Remote what), w' (held w))
         end.

(** The amount string of an order, in millionths of a dollar. *)
Definition micro_usd (amount : pyval) : option float :=
  match amount with
  | VStr s =>
      match NilEmpty.int_of_string s with
      | Some (Decimal.Pos d) =>
          Some (PrimFloat.of_uint63 (Uint63.of_Z (Z.of_uint d))
                / 1000000)%float
      | _ => None
      end
  | _ => None
  end.

(** Modelled from the spec: the helpers [get_position], [token_price],
    [chunk_kill] and [elegant_entry], which [nice_funcs.py] does not
    define, and a venue behind [market_buy].  The position and the price
    are plain reads; an accepted buy of a dollar amount fills at once at
    the quoted price; [chunk_kill] sells at most the given dollar size;
    [elegant_entry] buys one dollar.  A call made while the venue is
    [down] raises. *)
Definition venue (quote : float) (down : nat -> bool) : helpers venue_state :=
  {| get_position := fun _ =>
       served down "position" (fun h => Some (h, h));
     token_price := fun _ =>
       served down "price" (fun h => Some (quote, h));
     market_buy := fun _ amount _ =>
       served down "swap"
         (fun h => match micro_usd amount with
                   | Some usd => Some (tt, h + usd / quote)%float
                   | None => None
                   end);
     chunk_kill := fun _ size _ =>
       served down "swap"
         (fun h => let sold := if flt (size / quote) h
                               then (size / quote)%float else h in
                   Some (tt, h - sold)%float);
     elegant_entry := fun _ _ =>
       served down "swap" (fun h => Some (tt, h + 1 / quote)%float) |}.

(** The helper module a complete [nice_funcs.py] would be. *)
Definition helper_names : list string :=
  nice_funcs_names ++
  [ "get_position"; "token_price"; "chunk_kill"; "elegant_entry" ].

Definition test_module (quote : float) (down : nat -> bool)
  : pymodule venue_state :=
  {| names := helper_names; impl := venue quote down |}.

Definition frame0 : frame :=
  {| pos := 0%float; price := 0%float; pos_usd := 0%float;
     size_needed := 0%float; chunk_size := VInt 0 |}.

(** The state [bot] starts from when the venue holds [h] tokens. *)
Definition start (h : float) : state venue_state :=
  {| world := {| held := h; calls := 0 |}; vars := frame0; log := [];
     next_run := 0 |}.

Definition never : nat -> bool := fun _ => false.

Definition at_calls (ks : list nat) : nat -> bool :=
  fun k => existsb (Nat.eqb k) ks.

(** [config.py] with another replica count. *)
Definition with_replicas (k : nat) (c : config) : config :=
  {| symbol := symbol c; usd_size := usd_size c;
     max_usd_order_size := max_usd_order_size c; tx_sleep := tx_sleep c;
     slippage := slippage c; orders_per_open := k;
     buy_under := buy_under c; sell_over := sell_over c |}.

(** ** nice_funcs.token_overview *)

(** The operations [token_overview] applies to the objects decoded from
    the response body, up to its line 77. *)
Record python (obj : Type) : Type := {
  py_of_int : Z -> obj;                          (* an int literal *)
  py_empty_dict : obj;                           (* [{}] *)
  py_get : obj -> string -> obj -> exn + obj;    (* [o.get(key, default)] *)
  py_add : obj -> obj -> exn + obj;              (* [a + b] *)
  py_truediv : obj -> obj -> exn + obj;          (* [a / b] *)
  py_mul : obj -> obj -> exn + obj;              (* [a * b] *)
  py_truth : obj -> bool                         (* [if a] *)
}.

(** What [requests.get] returned: the status, and what [response.json()]
    gives or raises. *)
Record response (obj : Type) : Type := {
  status_code : Z;
  json : exn + obj
}.

Definition and_then {A B} (r : exn + A) (k : A -> exn + B) : exn + B :=
  match r with
  | inl e => inl e
  | inr a => k a
  end.

Section TokenOverview.

Variable obj : Type.
Variable py : python obj.

(** A result dictionary, in insertion order. *)
Definition result_dict : Type := list (string * obj).

(** What follows the load of [MIN_TRADES_LAST_HOUR]: the comparison of
    line 77 and lines 79-123, a function of [trade1h], of [overview_data]
    and of the [result] built so far. *)
Variable overview_rest :
  obj -> obj -> result_dict -> exn + option result_dict.

(** [(x / total_trades * 100) if total_trades else 0] *)
Definition percentage (x total_trades : obj) : exn + obj :=
  if py_truth py total_trades then
    and_then (py_truediv py x total_trades)
             (fun q => py_mul py q (py_of_int py 100))
  else inr (py_of_int py 0).

(** [token_overview(address)], given the response to its request; the
    value is the dictionary returned, or [None]. *)
Definition token_overview (resp : response obj)
  : exn + option result_dict :=
  if status_code resp =? 200 then
    and_then (json resp) (fun body =>
    and_then (py_get py body "data" (py_empty_dict py)) (fun overview_data =>
    and_then (py_get py overview_data "buy1h" (py_of_int py 0)) (fun buy1h =>
    and_then (py_get py overview_data "sell1h" (py_of_int py 0)) (fun sell1h =>
    and_then (py_add py buy1h sell1h) (fun trade1h =>
    let result := [("buy1h", buy1h); ("sell1h", sell1h);
                   ("trade1h", trade1h)] in
    let total_trades := trade1h in
    and_then (percentage buy1h total_trades) (fun buy_percentage =>
    and_then (percentage sell1h total_trades) (fun sell_percentage =>
    let result := (result ++ [("buy_percentage", buy_percentage);
                              ("sell_percentage", sell_percentage)])%list in
    and_then (load_global nice_funcs_names "MIN_TRADES_LAST_HOUR")
      (fun _ =>
    overview_rest trade1h overview_data result))))))))
  else inr None.

(** The statements of lines 57-74 alone: [trade1h] and the two
    percentages. *)
Definition overview_head (resp : response obj) : exn + obj * obj * obj :=
  and_then (json resp) (fun body =>
  and_then (py_get py body "data" (py_empty_dict py)) (fun overview_data =>
  and_then (py_get py overview_data "buy1h" (py_of_int py 0)) (fun buy1h =>
  and_then (py_get py overview_data "sell1h" (py_of_int py 0)) (fun sell1h =>
  and_then (py_add py buy1h sell1h) (fun trade1h =>
  and_then (percentage buy1h trade1h) (fun buy_percentage =>
  and_then (percentage sell1h trade1h) (fun sell_percentage =>
  inr (trade1h, buy_percentage, sell_percentage)))))))).

End TokenOverview.

(** *** Decoded JSON *)

Inductive json_value : Type :=
| JNone
| JBool (b : bool)
| JInt (i : Z)
| JFloat (f : float)
| JStr (s : string)
| JList (l : list json_value)
| JDict (kvs : list (string * json_value)).

Definition type_name (v : json_value) : string :=
  match v with
  | JNone => "NoneType"
  | JBool _ => "bool"
  | JInt _ => "int"
  | JFloat _ => "float"
  | JStr _ => "str"
  | JList _ => "list"
  | JDict _ => "dict"
  end.

Fixpoint lookup (key : string) (kvs : list (string * json_value))
  : option json_value :=
  match kvs with
  | [] => None
  | (k, v) :: kvs' => if String.eqb key k then Some v else lookup key kvs'
  end.

(** [o.get(key, default)]: only a dict has the method. *)
Definition json_get (o : json_value) (key : string) (default : json_value)
  : exn + json_value :=
  match o with
  | JDict kvs =>
      inr match lookup key kvs with Some v => v | None => default end
  | _ => inl (AttributeError (type_name o) "get")
  end.

(** The number an operand of arithmetic is: an int (a bool counts as 0 or
    1) or a float. *)
Definition as_number (v : json_value) : option (Z + float) :=
  match v with
  | JBool b => Some (inl (if b then 1 else 0))
  | JInt i => Some (inl i)
  | JFloat f => Some (inr f)
  | _ => None
  end.

Definition finite_or_overflow (x : spec_float) : exn + float :=
  match x with
  | S754_infinity _ => inl OverflowError
  | _ => inr (SF2Prim x)
  end.

(** [float(i)]: the nearest double, [OverflowError] beyond the range. *)
Definition int_to_float (i : Z) : exn + float :=
  finite_or_overflow (binary_normalize prec emax i 0 false).

(** [a / b] on ints: the correctly rounded quotient. *)
Definition int_truediv (a b : Z) : exn + float :=
  if b =? 0 then inl ZeroDivisionError
  else
    let sgn := xorb (a <? 0) (b <? 0) in
    if a =? 0 then inr (SF2Prim (S754_zero sgn))
    else
      let '(q, e, l) :=
        SFdiv_core_binary prec emax (Z.abs a) 0 (Z.abs b) 0 in
      finite_or_overflow (binary_round_aux prec emax sgn q e l).

Definition float_truediv (x y : float) : exn + float :=
  if PrimFloat.eqb y 0%float then inl ZeroDivisionError
  else inr (x / y)%float.

Definition json_add (a b : json_value) : exn + json_value :=
  match as_number a, as_number b with
  | Some (inl x), Some (inl y) => inr (JInt (x + y))
  | Some (inr x), Some (inr y) => inr (JFloat (x + y)%float)
  | Some (inl x), Some (inr y) =>
      and_then (int_to_float x) (fun x' => inr (JFloat (x' + y)%float))
  | Some (inr x), Some (inl y) =>
      and_then (int_to_float y) (fun y' => inr (JFloat (x + y')%float))
  | _, _ =>
      match a, b with
      | JStr s, JStr t => inr (JStr (s ++ t))
      | JList l, JList m => inr (JList (l ++ m)%list)
      | _, _ => inl TypeError
      end
  end.

Definition json_truediv (a b : json_value) : exn + json_value :=
  match as_number a, as_number b with
  | Some (inl x), Some (inl y) =>
      and_then (int_truediv x y) (fun q => inr (JFloat q))
  | Some (inr x), Some (inr y) =>
      and_then (float_truediv x y) (fun q => inr (JFloat q))
  | Some (inl x), Some (inr y) =>
      and_then (int_to_float x) (fun x' =>
      and_then (float_truediv x' y) (fun q => inr (JFloat q)))
  | Some (inr x), Some (inl y) =>
      and_then (int_to_float y) (fun y' =>
      and_then (float_truediv x y') (fun q => inr (JFloat q)))
  | _, _ => inl TypeError
  end.

Fixpoint repeat_string (k : nat) (s : string) : string :=
  match k with
  | O => EmptyString
  | S k' => s ++ repeat_string k' s
  end.

Definition repeat_list {A} (k : nat) (l : list A) : list A :=
  List.concat (List.repeat l k).

Definition json_mul (a b : json_value) : exn + json_value :=
  match as_number a, as_number b with
  | Some (inl x), Some (inl y) => inr (JInt (x * y))
  | Some (inr x), Some (inr y) => inr (JFloat (x * y)%float)
  | Some (inl x), Some (inr y) =>
      and_then (int_to_float x) (fun x' => inr (JFloat (x' * y)%float))
  | Some (inr x), Some (inl y) =>
      and_then (int_to_float y) (fun y' => inr (JFloat (x * y')%float))
  | Some (inl k), None =>
      match b with
      | JStr s => inr (JStr (repeat_string (Z.to_nat k) s))
      | JList l => inr (JList (repeat_list (Z.to_nat k) l))
      | _ => inl TypeError
      end
  | None, Some (inl k) =>
      match a with
      | JStr s => inr (JStr (repeat_string (Z.to_nat k) s))
      | JList l => inr (JList (repeat_list (Z.to_nat k) l))
      | _ => inl TypeError
      end
  | _, _ => inl TypeError
  end.

Definition json_truth (v : json_value) : bool :=
  match v with
  | JNone => false
  | JBool b => b
  | JInt i => negb (i =? 0)
  | JFloat f => negb (PrimFloat.eqb f 0%float)
  | JStr s => negb (String.eqb s EmptyString)
  | JList l => match l with [] => false | _ => true end
  | JDict kvs => match kvs with [] => false | _ => true end
  end.

Definition cpython : python json_value :=
  {| py_of_int := JInt;
     py_empty_dict := JDict [];
     py_get := json_get;
     py_add := json_add;
     py_truediv := json_truediv;
     py_mul := json_mul;
     py_truth := json_truth |}.

(** A status-200 answer carrying the JSON value [body]. *)
Definition ok_response (body : json_value) : response json_value :=
  {| status_code := 200; json := inr body |}.

(** A status-200 answer whose body is not JSON. *)
Definition html_response : response json_value :=
  {| status_code := 200; json := inl JSONDecodeError |}.

(** Lines 79-123 are given their effect on the result only as far as the
    examples need it: they hand the dictionary back. *)
Definition hand_back (trade1h overview_data : json_value)
    (result : result_dict json_value)
  : exn + option (result_dict json_value) :=
  inr (Some result).

(** ** What the properties speak of *)

(** An order amount is within the cap when it is a chunk [c] that does not
    exceed [max_usd_order_size], as the float itself or as the int or the
    string of [int(c * 10**6)]. *)
Definition within_cap (cfg : config) (amount : pyval) : Prop :=
  exists c : float,
    fgt c (max_usd_order_size cfg) = false /\
    (amount = VFloat c \/
     exists i : Z, py_int (c * 1000000)%float = inr i /\
                   (amount = VInt i \/ amount = VStr (py_str i))).

(** A buy carries an amount within the cap; a chunk kill is given the cap
    itself. *)
Definition order_capped (cfg : config) (ev : event) : Prop :=
  match ev with
  | MarketBuy _ amount _ _ => within_cap cfg amount
  | ChunkKill _ size _ _ => size = max_usd_order_size cfg
  | _ => True
  end.

Definition log_capped {W} (cfg : config) (s : state W) : Prop :=
  Forall (order_capped cfg) (log s).

Definition chunk_capped {W} (cfg : config) (s : state W) : Prop :=
  log_capped cfg s /\ within_cap cfg (chunk_size (vars s)).

(** [m] keeps [I]: however [m] ends, [I] still holds. *)
Definition keeps {W A} (I : state W -> Prop) (m : M W A) : Prop :=
  forall s, I s -> I (snd (m s)).

(** [m] takes [I] to [J] when it ends normally, and keeps [I] otherwise. *)
Definition takes {W A} (I J : state W -> Prop) (m : M W A) : Prop :=
  forall s, I s ->
    match m s with
    | (Ok _, s') => J s'
    | (_, s') => I s'
    end.

(** The state in which a buy round submits: the round's status line has
    been printed. *)
Definition announced {W} (cfg : config) (s0 : state W) : state W :=
  emit (Print "position: {} price: {} buy_under: {} pos_usd: ${}"
          [VFloat (pos (vars s0)); VFloat (price (vars s0));
           VFloat (buy_under cfg); VFloat (pos_usd (vars s0))]) s0.

(** The state the retry starts from: the notice is printed, 30 seconds are
    slept. *)
Definition backed_off {W} (s1 : state W) : state W :=
  emit (Sleep 30)
    (emit (Print "trying again to make the order in 30 seconds....." []) s1).

(** The state a second failure leaves: the final error is printed, 10
    seconds are slept. *)
Definition stalled {W} (s2 : state W) : state W :=
  emit (Sleep 10)
    (emit (Print "Final Error in the buy, restart needed" []) s2).

(** A position or price read that raised. *)
Definition failed_read (ev : event) : bool :=
  match ev with
  | GetPosition _ (inl _) | TokenPrice _ (inl _) => true
  | _ => false
  end.


(** The state in which a market-maker round reads: its banner is
    printed. *)
Definition mm_announced {W} (cfg : config) (s : state W) : state W :=
  emit (Print "market maker buying below {} and selling above {}"
          [VFloat (buy_under cfg); VFloat (sell_over cfg)]) s.

(** A sleep in the log has a length that [time.sleep] accepts. *)
Definition sound_event (ev : event) : Prop :=
  match ev with
  | Sleep secs => 0 <= secs
  | _ => True
  end.

(** An invariant that logging a sound event, a new world and new
    variables cannot break. *)
Definition stable {W} (I : state W -> Prop) : Prop :=
  (forall s ev, sound_event ev -> I s -> I (emit ev s)) /\
  (forall s w fr, I s ->
     I {| world := w; vars := fr; log := log s; next_run := next_run s |}).

(** The job has not been rescheduled since [s], and no time has been
    lost. *)
Definition still_due {W} (s s' : state W) : Prop :=
  next_run s' = next_run s /\ now s <= now s'.

(** The state an exception escaping [run_pending] leaves: the [except]
    clause has printed and slept its 15 seconds. *)
Definition cooled_down {W} (s1 : state W) : state W :=
  emit (Sleep 15) (emit (Print "*** error, sleeping" []) s1).

(** ** Further notions about [bot] and the scheduler *)

(** The orders a mode may submit: buys in mode 1, chunk kills in modes 0
    and 5, entries in mode 5. *)
Definition order_of_mode (buy : Z) (ev : event) : Prop :=
  match ev with
  | MarketBuy _ _ _ _ => buy = 1
  | ChunkKill _ _ _ _ => buy = 0 \/ buy = 5
  | ElegantEntry _ _ _ => buy = 5
  | _ => True
  end.

Definition log_of_mode {W} (buy : Z) (s : state W) : Prop :=
  Forall (order_of_mode buy) (log s).

(** [s] with the events [evs] logged after its own. *)
Definition logged {W} (evs : list event) (s : state W) : state W :=
  {| world := world s; vars := vars s; log := log s ++ evs;
     next_run := next_run s |}.

(** The line the busy modes 4, 6 and 7 print. *)
Definition busy_line (buy : Z) : string :=
  if buy =? 4 then "pnl close"
  else if buy =? 6 then "funding buy"
  else "liquidation amount".

(** [s] with its job set to run [secs] seconds from now. *)
Definition rescheduled {W} (secs : Z) (s : state W) : state W :=
  {| world := world s; vars := vars s; log := log s;
     next_run := now s + secs |}.

(** ** nice_funcs.find_urls and the lines of [token_overview] after line 77 *)

Definition between (lo hi c : ascii) : bool :=
  (nat_of_ascii lo <=? nat_of_ascii c)%nat
  && (nat_of_ascii c <=? nat_of_ascii hi)%nat.

(** One character of a URL, by the alternatives of the pattern:
    [[a-zA-Z]], [[0-9]], [[$-_@.&+]] (with the range from [$] to [_]) and
    [[!*\\(\\),]].  The fifth alternative, a percent sign and two hex
    digits, adds nothing: the percent sign is in the range [$-_] and hex
    digits are letters or digits. *)
Definition url_char (c : ascii) : bool :=
  (between "a" "z" c || between "A" "Z" c)
  || between "0" "9" c
  || (between "$" "_" c || Ascii.eqb c "@" || Ascii.eqb c "."
      || Ascii.eqb c "&" || Ascii.eqb c "+")
  || (Ascii.eqb c "!" || Ascii.eqb c "*" || Ascii.eqb c "\"
      || Ascii.eqb c "(" || Ascii.eqb c ")" || Ascii.eqb c ",").

(** The longest run of URL characters [s] starts with. *)
Fixpoint take_url (s : string) : string :=
  match s with
  | String c s' => if url_char c then String c (take_url s') else EmptyString
  | EmptyString => EmptyString
  end.

(** [s] without its prefix [p], when it has it. *)
Fixpoint strip (p s : string) : option string :=
  match p, s with
  | EmptyString, _ => Some s
  | String a p', String b s' => if Ascii.eqb a b then strip p' s' else None
  | String _ _, EmptyString => None
  end.

Definition url_after (scheme rest : string) : option string :=
  match take_url rest with
  | EmptyString => None
  | body => Some (scheme ++ body)
  end.

(** The match of [http[s]?://(?:...)+] at the start of [s]: the scheme,
    then one URL character or more, as many as there are. *)
Definition match_url (s : string) : option string :=
  match strip "https://" s with
  | Some rest => url_after "https://" rest
  | None =>
      match strip "http://" s with
      | Some rest => url_after "http://" rest
      | None => None
      end
  end.

(** [findall] from left to right: a match is taken where it starts, and
    the search goes on after its last character ([skip] characters
    further). *)
Fixpoint scan_urls (skip : nat) (s : string) : list string :=
  match s with
  | EmptyString => []
  | String c s' =>
      match skip with
      | S k => scan_urls k s'
      | O =>
          match match_url s with
          | Some url => url :: scan_urls (String.length url - 1) s'
          | None => scan_urls 0 s'
          end
      end
  end.

Definition find_urls (text : string) : list string := scan_urls 0 text.

(** [sub in s] *)
Fixpoint contains (sub s : string) : bool :=
  prefix sub s
  || match s with
     | EmptyString => false
     | String _ s' => contains sub s'
     end.

(** Lines 109-116: the list [links], each one-entry dictionary as the
    pair of its key and its URL. *)
Fixpoint link_dicts (urls : list string) : list (string * string) :=
  match urls with
  | [] => []
  | url :: rest =>
      if contains "t.me" url then ("telegram", url) :: link_dicts rest
      else if contains "twitter.com" url then ("twitter", url) :: link_dicts rest
      else if negb (contains "youtube" url) then ("website", url) :: link_dicts rest
      else link_dicts rest
  end.

(** Lines 106-107: [extensions = overview_data.get('extensions', {})] and
    [description = extensions.get('description', '') if extensions else ''];
    [find_urls] takes a string only. *)
Definition description_of (overview_data : json_value) : exn + string :=
  and_then (json_get overview_data "extensions" (JDict [])) (fun extensions =>
  and_then (if json_truth extensions
            then json_get extensions "description" (JStr EmptyString)
            else inr (JStr EmptyString)) (fun description =>
  match description with
  | JStr text => inr text
  | _ => inl TypeError
  end)).

(** Lines 106-116: [links]. *)
Definition overview_links (overview_data : json_value)
  : exn + list (string * string) :=
  and_then (description_of overview_data) (fun text =>
  inr (link_dicts (find_urls text))).

(** Line 80: the entries whose key mentions [priceChange]. *)
Definition price_changes (items : list (string * json_value))
  : list (string * json_value) :=
  filter (fun kv => contains "priceChange" (fst kv)) items.

(** [value < -80] *)
Definition below_minus_80 (value : json_value) : exn + bool :=
  match value with
  | JBool b => inr ((if b then 1 else 0) <? -80)
  | JInt i => inr (i <? -80)
  | JFloat f => inr (flt f (-80)%float)
  | _ => inl TypeError
  end.

(** Line 84: [any(value < -80 for key, value in price_changes.items()
    if value is not None)]; [any] stops at the first true test. *)
Fixpoint any_below (items : list (string * json_value)) : exn + bool :=
  match items with
  | [] => inr false
  | (_, value) :: rest =>
      match value with
      | JNone => any_below rest
      | _ =>
          match below_minus_80 value with
          | inl e => inl e
          | inr true => inr true
          | inr false => any_below rest
          end
      end
  end.

Definition rug_pull (items : list (string * json_value)) : exn + bool :=
  any_below (price_changes items).

(** A number that is below -80. *)
Definition plunges (value : json_value) : bool :=
  match value with
  | JBool b => (if b then 1 else 0) <? -80
  | JInt i => i <? -80
  | JFloat f => flt f (-80)%float
  | _ => false
  end.

(** A number or [None]. *)
Definition numeric_or_none (value : json_value) : bool :=
  match value with
  | JNone | JBool _ | JInt _ | JFloat _ => true
  | _ => false
  end.

Fixpoint all_chars (p : ascii -> bool) (s : string) : bool :=
  match s with
  | EmptyString => true
  | String c s' => p c && all_chars p s'
  end.

(** A string [find_urls] can return: a scheme and at least one URL
    character after it, nothing else. *)
Definition url_shaped (u : string) : Prop :=
  exists body : string,
    (u = "http://" ++ body \/ u = "https://" ++ body) /\
    body <> EmptyString /\ all_chars url_char body = true.

(** What the label of a link says of its URL: the tests of lines 111-115,
    in their order. *)
Definition link_labelled (kv : string * string) : Prop :=
  let (label, url) := kv in
  (label = "telegram" /\ contains "t.me" url = true) \/
  (label = "twitter" /\ contains "t.me" url = false /\
   contains "twitter.com" url = true) \/
  (label = "website" /\ contains "t.me" url = false /\
   contains "twitter.com" url = false /\ contains "youtube" url = false).

(** ** What the log says of a retry and of the script's cooldown *)

(** A [market_buy] call that raised, and one that was accepted. *)
Definition rejected_buy (ev : event) : bool :=
  match ev with MarketBuy _ _ _ (inl _) => true | _ => false end.

Definition accepted_buy (ev : event) : bool :=
  match ev with MarketBuy _ _ _ (inr _) => true | _ => false end.

(** The notice of line 97, which opens the one retry. *)
Definition retry_notice (ev : event) : bool :=
  match ev with
  | Print text [] =>
      String.eqb text "trying again to make the order in 30 seconds....."
  | _ => false
  end.

(** The notice of line 117, by which a round reports that it gives up. *)
Definition stalled_notice (ev : event) : bool :=
  match ev with
  | Print text [] => String.eqb text "Final Error in the buy, restart needed"
  | _ => false
  end.

(** The events that follow the first retry notice. *)
Fixpoint after_retry_notice (l : list event) : list event :=
  match l with
  | [] => []
  | ev :: l' => if retry_notice ev then l' else after_retry_notice l'
  end.

(** The notice of line 204, printed when the [while True] loop has caught
    an exception. *)
Definition cooldown_notice (ev : event) : bool :=
  match ev with
  | Print text [] => String.eqb text "*** error, sleeping"
  | _ => false
  end.

(** * Properties *)

Unset Implicit Arguments.
Local Open Scope list_scope.

(** ** Order facts on binary64 comparisons *)

Lemma SFcompare_finite_Lt (s1 s2 : bool) (m1 m2 : positive) (e1 e2 : Z) :
  SFcompare (S754_finite s1 m1 e1) (S754_finite s2 m2 e2) = Some Lt <->
  match s1, s2 with
  | true, false => True
  | false, true => False
  | false, false => e1 < e2 \/ (e1 = e2 /\ (m1 < m2)%positive)
  | true, true => e2 < e1 \/ (e1 = e2 /\ (m2 < m1)%positive)
  end.
Proof.
  simpl. change (Pos.compare_cont Eq m1 m2) with (m1 ?= m2)%positive.
  destruct s1, s2;
    destruct (Z.compare_spec e1 e2);
    destruct (Pos.compare_spec m1 m2); simpl;
    split; intros H'; try discriminate; try reflexivity; try tauto; try lia;
    try (inversion H'; fail).
Qed.

Lemma SFcompare_finite_Eq (s1 s2 : bool) (m1 m2 : positive) (e1 e2 : Z) :
  SFcompare (S754_finite s1 m1 e1) (S754_finite s2 m2 e2) = Some Eq <->
  s1 = s2 /\ e1 = e2 /\ m1 = m2.
Proof.
  simpl. change (Pos.compare_cont Eq m1 m2) with (m1 ?= m2)%positive.
  destruct s1, s2;
    destruct (Z.compare_spec e1 e2);
    destruct (Pos.compare_spec m1 m2); simpl;
    split; intros H'; try discriminate; try reflexivity;
    try (destruct H' as (? & ? & ?); try discriminate; lia);
    try (repeat split; congruence).
Qed.

Lemma SFltb_irrefl (x : spec_float) : SFltb x x = false.
Proof.
  unfold SFltb.
  destruct (SFcompare x x) as [[| |]|] eqn:E; try reflexivity.
  destruct x as [s|s| |s m e]; simpl in E; try discriminate;
    try (destruct s; discriminate).
  apply SFcompare_finite_Lt in E. destruct s; lia.
Qed.

Lemma SFltb_SFleb_trans (x y z : spec_float) :
  SFltb x y = true -> SFleb y z = true -> SFltb x z = true.
Proof.
  unfold SFltb, SFleb.
  destruct (SFcompare x y) as [[| |]|] eqn:Exy; try discriminate.
  destruct (SFcompare y z) as [[| |]|] eqn:Eyz; try discriminate;
    intros _ _.
  - destruct x as [sx|sx| |sx mx ex], y as [sy|sy| |sy my ey],
      z as [sz|sz| |sz mz ez];
      simpl in Exy, Eyz; try discriminate;
      try (destruct sx; discriminate); try (destruct sy; discriminate);
      try (destruct sx, sy; discriminate);
      try (destruct sy, sz; discriminate);
      try (destruct sx, sy, sz; simpl; (reflexivity || discriminate)).
    all: try (apply SFcompare_finite_Eq in Eyz; destruct Eyz as (-> & -> & ->);
              change (SFcompare (S754_finite sx mx ex) (S754_finite sz mz ez)
                      = Some Lt) in Exy; rewrite Exy; reflexivity).
    all: try (destruct sx, sy; simpl in *; (reflexivity || discriminate)).
    all: try (destruct sx, sz; simpl in *; (reflexivity || discriminate)).
  - destruct x as [sx|sx| |sx mx ex], y as [sy|sy| |sy my ey],
      z as [sz|sz| |sz mz ez];
      simpl in Exy, Eyz; try discriminate;
      try (destruct sx; discriminate); try (destruct sy; discriminate);
      try (destruct sz; discriminate);
      try (destruct sx, sy; discriminate);
      try (destruct sy, sz; discriminate);
      try (destruct sx, sy, sz; simpl; (reflexivity || discriminate)).
    all: try (destruct sx, sy; simpl in *; (reflexivity || discriminate)).
    all: try (destruct sx, sz; simpl in *; (reflexivity || discriminate)).
    all: try (destruct sy, sz; simpl in *; (reflexivity || discriminate)).
    all: try (change (SFcompare (S754_finite sx mx ex) (S754_finite sy my ey)
                      = Some Lt) in Exy;
              change (SFcompare (S754_finite sy my ey) (S754_finite sz mz ez)
                      = Some Lt) in Eyz;
              apply SFcompare_finite_Lt in Exy; apply SFcompare_finite_Lt in Eyz;
              assert (G : SFcompare (S754_finite sx mx ex) (S754_finite sz mz ez)
                          = Some Lt)
                by (apply SFcompare_finite_Lt; destruct sx, sy, sz; lia);
              rewrite G; reflexivity).
Qed.

Lemma SFltb_SFleb (x y : spec_float) : SFltb x y = true -> SFleb x y = true.
Proof.
  unfold SFltb, SFleb. destruct (SFcompare x y) as [[| |]|]; auto.
Qed.

Lemma SFleb_not_SFltb (x y : spec_float) :
  SFleb x y = true -> SFltb y x = false.
Proof.
  intros Hle. destruct (SFltb y x) eqn:Hlt; [|reflexivity].
  rewrite <- (SFltb_irrefl y). symmetry.
  exact (SFltb_SFleb_trans y x y Hlt Hle).
Qed.

Lemma fgt_irrefl (x : float) : fgt x x = false.
Proof. unfold fgt. rewrite FloatAxioms.ltb_spec. apply SFltb_irrefl. Qed.

Lemma flt_fle_trans (x y z : float) :
  flt x y = true -> fle y z = true -> flt x z = true.
Proof.
  unfold flt, fle. rewrite !FloatAxioms.ltb_spec, FloatAxioms.leb_spec. apply SFltb_SFleb_trans.
Qed.

Lemma fle_not_fgt (x y : float) : fle x y = true -> fgt x y = false.
Proof.
  unfold fle, fgt. rewrite FloatAxioms.ltb_spec, FloatAxioms.leb_spec. apply SFleb_not_SFltb.
Qed.

Lemma flt_not_fgt (x y : float) : flt x y = true -> fgt x y = false.
Proof.
  unfold flt, fgt. rewrite !FloatAxioms.ltb_spec. intros H.
  apply SFleb_not_SFltb, SFltb_SFleb, H.
Qed.

Lemma fgt_not_flt (x y : float) : fgt x y = true -> flt x y = false.
Proof. unfold flt, fgt. intros H. exact (flt_not_fgt y x H). Qed.

(** ** How invariants pass through the statements *)

Section Invariants.

Context {W : Type}.

Implicit Types I J : state W -> Prop.

Lemma keeps_ret I A (a : A) : keeps I (ret a).
Proof. intros s Hs. exact Hs. Qed.

Lemma keeps_raise I A (e : exn) : keeps I (raise (A := A) e).
Proof. intros s Hs. exact Hs. Qed.

Lemma keeps_break I : keeps I break.
Proof. intros s Hs. exact Hs. Qed.

Lemma keeps_lift I A (r : exn + A) : keeps I (lift r).
Proof. destruct r; intros s Hs; exact Hs. Qed.

Lemma keeps_read I A (f : frame -> A) : keeps I (read f).
Proof. intros s Hs. exact Hs. Qed.

Lemma keeps_bind I A B (m : M W A) (k : A -> M W B) :
  keeps I m -> (forall a, keeps I (k a)) -> keeps I (bind m k).
Proof.
  intros Hm Hk s Hs. unfold bind. specialize (Hm s Hs).
  destruct (m s) as [[a| |e|] s']; simpl in *; auto. apply Hk, Hm.
Qed.

Lemma takes_bind I J A B (m : M W A) (k : A -> M W B) :
  takes I J m -> (forall a s, J s -> I (snd (k a s))) -> keeps I (bind m k).
Proof.
  intros Hm Hk s Hs. unfold bind. specialize (Hm s Hs).
  destruct (m s) as [[a| |e|] s']; simpl in *; auto.
Qed.

Lemma keeps_try I A (m h : M W A) :
  keeps I m -> keeps I h -> keeps I (try_except m h).
Proof.
  intros Hm Hh s Hs. unfold try_except. specialize (Hm s Hs).
  destruct (m s) as [[a| |e|] s']; simpl in *; auto.
Qed.

Lemma keeps_when I (c : state W -> bool) (m : M W unit) :
  keeps I m -> keeps I (when c m).
Proof.
  intros Hm s Hs. unfold when. destruct (c s); [apply Hm, Hs | exact Hs].
Qed.

Lemma keeps_for_range I (k : nat) (body : M W unit) :
  keeps I body -> keeps I (for_range k body).
Proof.
  intros Hb. induction k as [|k IH]; simpl.
  - apply keeps_ret.
  - apply keeps_bind; [exact Hb | intros _; exact IH].
Qed.

Lemma keeps_while I (fuel : nat) (c : state W -> bool) (body : M W unit) :
  keeps I body -> keeps I (while fuel c body).
Proof.
  intros Hb. induction fuel as [|fuel IH]; intros s Hs; simpl; [exact Hs|].
  destruct (c s); [|exact Hs]. specialize (Hb s Hs).
  destruct (body s) as [[[]| |e|] s']; simpl in *; auto.
Qed.

Lemma keeps_while_else I (fuel : nat) (c : state W -> bool)
    (body orelse : M W unit) :
  keeps I body -> keeps I orelse -> keeps I (while_else fuel c body orelse).
Proof.
  intros Hb Ho. induction fuel as [|fuel IH]; intros s Hs; simpl; [exact Hs|].
  destruct (c s); [|apply Ho, Hs]. specialize (Hb s Hs).
  destruct (body s) as [[[]| |e|] s']; simpl in *; auto.
Qed.

Lemma keeps_weaken I J A (m : M W A) :
  (forall s, J s -> I s) -> keeps J m -> forall s, J s -> I (snd (m s)).
Proof. intros HJI Hm s Hs. apply HJI, Hm, Hs. Qed.

End Invariants.

(** ** The cap on order sizes *)

Section Cap.

Context {W : Type}.
Variable cfg : config.
Variable n : pymodule W.
Variable buy : Z.

Lemma chunk_capped_log (s : state W) : chunk_capped cfg s -> log_capped cfg s.
Proof. intros [H _]. exact H. Qed.

Lemma capped_emit (ev : event) (s : state W) :
  order_capped cfg ev -> log_capped cfg s -> log_capped cfg (emit ev s).
Proof.
  intros Hev Hs. unfold log_capped, emit; simpl.
  apply Forall_app. split; [exact Hs | constructor; [exact Hev | constructor]].
Qed.

Lemma log_capped_print text args : keeps (log_capped cfg) (print (W := W) text args).
Proof. intros s Hs. apply capped_emit; [exact I | exact Hs]. Qed.

Lemma log_capped_sleep secs : keeps (log_capped cfg) (sleep (W := W) secs).
Proof.
  intros s Hs. unfold sleep. destruct (secs <? 0); [exact Hs|].
  apply capped_emit; [exact I | exact Hs].
Qed.

Lemma log_capped_assign f : keeps (log_capped cfg) (assign (W := W) f).
Proof. intros s Hs. exact Hs. Qed.

Lemma log_capped_invoke A (name : string) (f : call A) (ev : exn + A -> event) :
  (forall r, order_capped cfg (ev r)) ->
  keeps (log_capped cfg) (invoke n name f ev).
Proof.
  intros Hev s Hs. unfold invoke. destruct (binds (names n) name); [|exact Hs].
  destruct (f (world s)) as [r w].
  assert (G : Forall (order_capped cfg) (log s ++ [ev r])).
  { apply Forall_app. split; [exact Hs | constructor; [apply Hev | constructor]]. }
  destruct r; exact G.
Qed.

Lemma chunk_capped_print text args :
  keeps (chunk_capped cfg) (print (W := W) text args).
Proof.
  intros s [Hl Hc]. split; [apply log_capped_print, Hl | exact Hc].
Qed.

Lemma chunk_capped_sleep secs : keeps (chunk_capped cfg) (sleep (W := W) secs).
Proof.
  intros s [Hl Hc]. split; [apply log_capped_sleep, Hl|].
  unfold sleep. destruct (secs <? 0); exact Hc.
Qed.

Lemma chunk_capped_invoke A (name : string) (f : call A) (ev : exn + A -> event) :
  (forall r, order_capped cfg (ev r)) ->
  keeps (chunk_capped cfg) (invoke n name f ev).
Proof.
  intros Hev s [Hl Hc]. split; [apply log_capped_invoke; assumption|].
  unfold invoke. destruct (binds (names n) name); [|exact Hc].
  destruct (f (world s)) as [r w]. destruct r; exact Hc.
Qed.

Lemma chunk_capped_assign f :
  (forall fr, chunk_size (f fr) = chunk_size fr) ->
  keeps (chunk_capped cfg) (assign (W := W) f).
Proof.
  intros Hf s [Hl Hc]. split; [exact Hl|]. simpl. rewrite Hf. exact Hc.
Qed.

Lemma set_chunk_size_capped (v : pyval) (s : state W) :
  within_cap cfg v -> log_capped cfg s ->
  chunk_capped cfg (snd (set_chunk_size v s)).
Proof. intros Hv Hs. split; [exact Hs | exact Hv]. Qed.

Lemma chunk_for_capped (needed : float) :
  fgt (chunk_for cfg needed) (max_usd_order_size cfg) = false.
Proof.
  unfold chunk_for.
  destruct (fgt needed (max_usd_order_size cfg)) eqn:E;
    [apply fgt_irrefl | exact E].
Qed.

Lemma keeps_takes (I J : state W -> Prop) A B (m : M W A) (k : A -> M W B) :
  keeps I m -> (forall a, takes I J (k a)) -> takes I J (bind m k).
Proof.
  intros Hm Hk s Hs. unfold bind. specialize (Hm s Hs).
  destruct (m s) as [[a| |e|] s'] eqn:E; simpl in *; auto.
  apply Hk, Hm.
Qed.

Ltac keep_log :=
  repeat first
    [ apply keeps_bind; [|intros ?]
    | apply keeps_try | apply keeps_when | apply keeps_while
    | apply keeps_while_else | apply keeps_for_range
    | apply keeps_ret | apply keeps_break | apply keeps_read
    | apply keeps_lift | apply log_capped_print | apply log_capped_sleep
    | apply log_capped_assign
    | apply log_capped_invoke; intros ?; simpl; solve [exact I | reflexivity] ].

Ltac keep_chunk :=
  repeat first
    [ apply keeps_bind; [|intros ?]
    | apply keeps_try | apply keeps_when | apply keeps_while
    | apply keeps_for_range
    | apply keeps_ret | apply keeps_break | apply keeps_read
    | apply keeps_lift | apply chunk_capped_print | apply chunk_capped_sleep
    | apply chunk_capped_assign; intros []; reflexivity
    | apply chunk_capped_invoke; intros ?; simpl; solve [exact I | reflexivity] ].

Lemma fetch_pos_log : keeps (log_capped cfg) (fetch_pos cfg n).
Proof. unfold fetch_pos, n_get_position, set_pos. keep_log. Qed.

Lemma fetch_log : keeps (log_capped cfg) (fetch cfg n).
Proof.
  unfold fetch, n_token_price, set_price.
  apply keeps_bind; [apply fetch_pos_log | intros ?]. keep_log.
Qed.

Lemma fetch_chunk : keeps (chunk_capped cfg) (fetch cfg n).
Proof.
  unfold fetch, fetch_pos, n_get_position, n_token_price, set_pos, set_price.
  keep_chunk.
Qed.

(** Sizing ends with a chunk within the cap, also when [int()] raises. *)
Lemma size_chunk_sets (s : state W) :
  log_capped cfg s ->
  log_capped cfg (snd (size_chunk cfg s)) /\
  within_cap cfg (chunk_size (vars (snd (size_chunk cfg s)))).
Proof.
  intros Hs. unfold size_chunk, bind, read, set_pos_usd, set_size_needed,
    set_chunk_size, assign, lift; simpl.
  set (c := chunk_for cfg (usd_size cfg - pos (vars s) * price (vars s))%float).
  destruct (py_int (c * 1000000)%float) as [e|i] eqn:E; simpl.
  - split; [exact Hs|]. exists c. split; [apply chunk_for_capped | left; reflexivity].
  - split; [exact Hs|]. exists c. split; [apply chunk_for_capped|].
    right. exists i. split; [exact E | right; reflexivity].
Qed.

Lemma size_chunk_takes : takes (log_capped cfg) (chunk_capped cfg) (size_chunk (W := W) cfg).
Proof.
  intros s Hs. destruct (size_chunk_sets s Hs) as [Hl Hc].
  destruct (size_chunk cfg s) as [[[]| |e|] s']; simpl in *; auto; split; auto.
Qed.

Lemma size_chunk_chunk : keeps (chunk_capped cfg) (size_chunk (W := W) cfg).
Proof.
  intros s [Hs _]. destruct (size_chunk_sets s Hs) as [Hl Hc]. split; auto.
Qed.

Lemma refresh_takes : takes (log_capped cfg) (chunk_capped cfg) (refresh cfg n).
Proof.
  unfold refresh. apply keeps_takes; [apply fetch_log | intros _].
  apply size_chunk_takes.
Qed.

Lemma refresh_log : keeps (log_capped cfg) (refresh cfg n).
Proof.
  intros s Hs. generalize (refresh_takes s Hs).
  destruct (refresh cfg n s) as [[[]| |e|] s']; simpl; auto.
  intros [H _]; exact H.
Qed.

Lemma refresh_chunk : keeps (chunk_capped cfg) (refresh cfg n).
Proof.
  unfold refresh. apply keeps_bind; [apply fetch_chunk | intros _].
  apply size_chunk_chunk.
Qed.

Lemma bind_read A B (f : frame -> A) (k : A -> M W B) (s : state W) :
  bind (read f) k s = k (f (vars s)) s.
Proof. reflexivity. Qed.

(** Each replica is submitted with the chunk last sized. *)
Lemma replica_chunk (c : pyval) :
  within_cap cfg c ->
  keeps (chunk_capped cfg)
    (bind (n_market_buy n (symbol cfg) c (slippage cfg))
       (fun _ => bind (print
          "chunk buy submitted of {} sz: {} you my dawg moon dev"
          [VStr (last4 (symbol cfg)); c]) (fun _ => sleep 1))).
Proof.
  intros Hc. unfold n_market_buy.
  apply keeps_bind; [|intros ?; keep_chunk].
  apply chunk_capped_invoke. intros r. exact Hc.
Qed.

Lemma submit_replicas_chunk : keeps (chunk_capped cfg) (submit_replicas cfg n).
Proof.
  unfold submit_replicas. apply keeps_for_range. intros s Hs.
  rewrite bind_read. apply replica_chunk; [apply Hs | exact Hs].
Qed.

Lemma attempt_chunk : keeps (chunk_capped cfg) (attempt cfg n).
Proof.
  unfold attempt.
  apply keeps_bind; [apply submit_replicas_chunk | intros _].
  apply keeps_bind; [apply chunk_capped_sleep | intros _].
  apply refresh_chunk.
Qed.

Lemma buy_step_chunk : keeps (chunk_capped cfg) (buy_step cfg n).
Proof.
  unfold buy_step, retry, give_up_buy.
  apply keeps_try; [apply attempt_chunk|].
  apply keeps_try; [|keep_chunk].
  apply keeps_bind; [apply chunk_capped_print | intros _].
  apply keeps_bind; [apply chunk_capped_sleep | intros _].
  apply attempt_chunk.
Qed.

Lemma buy_round_chunk : keeps (chunk_capped cfg) (buy_round cfg n).
Proof.
  unfold buy_round.
  do 3 (apply keeps_bind; [apply keeps_read | intros ?]).
  apply keeps_bind; [apply chunk_capped_print | intros _].
  apply keeps_bind; [apply buy_step_chunk | intros _].
  apply keeps_bind; [apply chunk_capped_sleep | intros _].
  apply refresh_chunk.
Qed.

Lemma open_body_log (fuel : nat) : keeps (log_capped cfg) (open_body cfg n fuel).
Proof.
  unfold open_body, buy_loop.
  apply keeps_bind; [apply log_capped_print | intros _].
  apply takes_bind with (J := chunk_capped cfg); [apply refresh_takes|].
  intros _. apply keeps_weaken; [apply chunk_capped_log|].
  apply keeps_bind; [keep_chunk | intros _].
  apply keeps_bind; [apply keeps_while, buy_round_chunk | intros _].
  unfold report_filled. keep_chunk.
Qed.

Lemma close_body_log (fuel : nat) : keeps (log_capped cfg) (close_body cfg n fuel).
Proof.
  unfold close_body, kill_round, n_chunk_kill.
  apply keeps_bind; [apply log_capped_print | intros _].
  apply keeps_bind; [apply fetch_pos_log | intros _].
  apply keeps_bind.
  - apply keeps_while.
    apply keeps_bind; [keep_log | intros _].
    apply keeps_bind; [apply fetch_pos_log | intros _]. keep_log.
  - intros _. apply keeps_when.
    apply keeps_bind; [keep_log | intros _].
    apply keeps_bind; [apply fetch_pos_log | intros _]. keep_log.
Qed.

Lemma mm_body_log : keeps (log_capped cfg) (mm_body cfg n).
Proof.
  unfold mm_body.
  apply keeps_bind; [apply log_capped_print | intros _].
  apply keeps_bind; [apply refresh_log | intros _].
  intros s Hs. unfold mm_decide.
  destruct (fgt (price (vars s)) (sell_over cfg)).
  - revert s Hs. unfold mm_sell, n_chunk_kill. keep_log.
  - destruct (flt (price (vars s)) (buy_under cfg)
              && flt (pos_usd (vars s)) (usd_size cfg)).
    + revert s Hs. unfold mm_buy, n_elegant_entry.
      apply keeps_bind; [keep_log | intros _].
      apply keeps_bind; [apply refresh_log | intros _].
      keep_log.
    + revert s Hs. unfold mm_idle. keep_log.
Qed.

(** C1.  Whatever the target [usd_size], the cap [max_usd_order_size], the
    mode, the helper module and the services behind it do, every order
    [bot] submits respects the cap: a [market_buy] carries a chunk
    [min(size_needed, max_usd_order_size)], which never exceeds
    [max_usd_order_size] (encoded as [str(int(chunk * 10**6))]), and a
    [chunk_kill] is given [max_usd_order_size] itself.  If the orders
    logged before the invocation respect the cap, so do all the orders
    logged after it. *)
Theorem bot_orders_within_cap (fuel : nat) (s : state W) :
  Forall (order_capped cfg) (log s) ->
  Forall (order_capped cfg) (log (snd (bot cfg n buy fuel s))).
Proof.
  revert s. change (keeps (log_capped cfg) (bot cfg n buy fuel)).
  unfold bot.
  apply keeps_bind; [apply keeps_while, close_body_log | intros _].
  apply keeps_bind; [apply log_capped_print | intros _].
  apply keeps_bind; [apply keeps_while, open_body_log | intros _].
  apply keeps_bind; [apply keeps_while, log_capped_print | intros _].
  apply keeps_bind; [apply keeps_while, mm_body_log | intros _].
  apply keeps_bind; [apply keeps_while, log_capped_print | intros _].
  apply keeps_while_else; apply log_capped_print.
Qed.

End Cap.

Lemma bot_orders_within_cap_witness :
  Forall (order_capped config_py)
    (log (snd (bot config_py (test_module 1 never) 1 20 (start 0)))).
Proof.
  apply (bot_orders_within_cap config_py (test_module 1 never) 1 20 (start 0)).
  simpl. constructor.
Defined.

(** ** Stepping through statements *)

Section Steps.

Context {W : Type}.

Lemma bind_ok A B (m : M W A) (k : A -> M W B) (s s' : state W) (a : A) :
  m s = (Ok a, s') -> bind m k s = k a s'.
Proof. intros H. unfold bind. rewrite H. reflexivity. Qed.

Lemma bind_raise A B (m : M W A) (k : A -> M W B) (s s' : state W) (e : exn) :
  m s = (Raise e, s') -> bind m k s = (Raise e, s').
Proof. intros H. unfold bind. rewrite H. reflexivity. Qed.

Lemma bind_break A B (m : M W A) (k : A -> M W B) (s s' : state W) :
  m s = (Break, s') -> bind m k s = (Break, s').
Proof. intros H. unfold bind. rewrite H. reflexivity. Qed.

Lemma bind_assoc A B C (m : M W A) (k : A -> M W B) (h : B -> M W C)
    (s : state W) :
  bind (bind m k) h s = bind m (fun a => bind (k a) h) s.
Proof. unfold bind. destruct (m s) as [[a| |e|] s']; reflexivity. Qed.

Lemma try_ok A (m h : M W A) (s s' : state W) (a : A) :
  m s = (Ok a, s') -> try_except m h s = (Ok a, s').
Proof. intros H. unfold try_except. rewrite H. reflexivity. Qed.

Lemma try_raise A (m h : M W A) (s s' : state W) (e : exn) :
  m s = (Raise e, s') -> try_except m h s = h s'.
Proof. intros H. unfold try_except. rewrite H. reflexivity. Qed.

Lemma while_break (fuel : nat) (c : state W -> bool) (body : M W unit)
    (s s' : state W) :
  c s = true -> body s = (Break, s') -> while (S fuel) c body s = (Ok tt, s').
Proof. intros Hc Hb. simpl. rewrite Hc, Hb. reflexivity. Qed.

Lemma while_raise (fuel : nat) (c : state W -> bool) (body : M W unit)
    (s s' : state W) (e : exn) :
  c s = true -> body s = (Raise e, s') ->
  while (S fuel) c body s = (Raise e, s').
Proof. intros Hc Hb. simpl. rewrite Hc, Hb. reflexivity. Qed.

Lemma bind_print B (text : string) (args : list pyval) (k : unit -> M W B)
    (s : state W) :
  bind (print text args) k s = k tt (emit (Print text args) s).
Proof. reflexivity. Qed.

Lemma bind_sleep B (secs : Z) (k : unit -> M W B) (s : state W) :
  0 <= secs -> bind (sleep secs) k s = k tt (emit (Sleep secs) s).
Proof.
  intros H. unfold bind, sleep.
  destruct (Z.ltb_spec secs 0); [lia | reflexivity].
Qed.

Lemma while_else_done (fuel : nat) (c : state W -> bool)
    (body orelse : M W unit) (s : state W) :
  c s = false -> while_else (S fuel) c body orelse s = orelse s.
Proof. intros Hc. simpl. rewrite Hc. reflexivity. Qed.

Lemma while_done (fuel : nat) (c : state W -> bool) (body : M W unit)
    (s : state W) :
  c s = false -> while (S fuel) c body s = (Ok tt, s).
Proof. intros Hc. simpl. rewrite Hc. reflexivity. Qed.

End Steps.

(** ** Retry after a failed submission *)

Section Retry.

Context {W : Type}.
Variable cfg : config.
Variable n : pymodule W.

Lemma attempt_raises (s s1 : state W) (e : exn) :
  submit_replicas cfg n s = (Raise e, s1) -> attempt cfg n s = (Raise e, s1).
Proof. intros H. unfold attempt. apply bind_raise, H. Qed.

Lemma buy_round_step (s0 : state W) :
  buy_round cfg n s0 =
  bind (buy_step cfg n)
       (fun _ => bind (sleep 3) (fun _ => refresh cfg n)) (announced cfg s0).
Proof. reflexivity. Qed.

(** C2.  In a round of the buy loop (loop test true at [s0]) whose
    submissions fail with some exception, exactly one retry follows, after
    the notice and a 30-second sleep ([backed_off]).  If the retry (the
    resubmission and the re-read of its [try] block) succeeds, the [try]
    statement ends normally in the retry's final state, and the round goes
    on with lines 121-129 as after a first-time success: nothing is
    reported.  If the retry raises too, the final error is printed, 10
    seconds are slept ([stalled]), and the buy loop is left at once in
    that very state: no third attempt is made, and what is left of the
    buy mode prints the total and breaks out. *)
Theorem failed_submission_retried_once (fuel : nat) (s0 s1 : state W) (e : exn) :
  flt (pos_usd (vars s0)) (filled_level cfg) = true ->
  submit_replicas cfg n (announced cfg s0) = (Raise e, s1) ->
  buy_step cfg n (announced cfg s0)
    = try_except (attempt cfg n) (give_up_buy (W := W)) (backed_off s1) /\
  (forall s2, attempt cfg n (backed_off s1) = (Ok tt, s2) ->
     buy_step cfg n (announced cfg s0) = (Ok tt, s2) /\
     buy_round cfg n s0 = bind (sleep 3) (fun _ => refresh cfg n) s2) /\
  (forall e' s2, attempt cfg n (backed_off s1) = (Raise e', s2) ->
     buy_step cfg n (announced cfg s0) = (Break, stalled s2) /\
     log (stalled s2)
       = log s2 ++ [Print "Final Error in the buy, restart needed" [];
                    Sleep 10] /\
     buy_loop cfg n (S fuel) s0 = (Ok tt, stalled s2) /\
     bind (buy_loop cfg n (S fuel)) (fun _ => report_filled cfg) s0
       = (Break,
          emit (Print "position filled of {} total: ${}"
                  [VStr (last4 (symbol cfg)); VFloat (pos_usd (vars s2))])
            (stalled s2))).
Proof.
  intros Hc Hfail.
  assert (Hstep : buy_step cfg n (announced cfg s0)
                  = try_except (attempt cfg n) (give_up_buy (W := W))
                      (backed_off s1)).
  { unfold buy_step. rewrite (try_raise _ _ _ _ _ _ (attempt_raises _ _ _ Hfail)).
    reflexivity. }
  split; [exact Hstep|]. split.
  - intros s2 Hok.
    assert (G : buy_step cfg n (announced cfg s0) = (Ok tt, s2)).
    { rewrite Hstep. apply try_ok, Hok. }
    split; [exact G|].
    rewrite buy_round_step.
    rewrite (bind_ok _ _ _ _ _ _ tt G). reflexivity.
  - intros e' s2 Hraise.
    assert (G : buy_step cfg n (announced cfg s0) = (Break, stalled s2)).
    { rewrite Hstep. rewrite (try_raise _ _ _ _ _ _ Hraise). reflexivity. }
    assert (L : buy_loop cfg n (S fuel) s0 = (Ok tt, stalled s2)).
    { unfold buy_loop. apply while_break; [exact Hc|].
      rewrite buy_round_step. apply bind_break, G. }
    split; [exact G|]. split; [|split].
    + unfold stalled, emit; simpl. rewrite <- app_assoc. reflexivity.
    + exact L.
    + rewrite (bind_ok _ _ _ _ _ _ tt L). reflexivity.
Qed.

End Retry.

Lemma failed_submission_retried_once_witness :
  (let m := test_module 1 (at_calls [2%nat]) in
   let s0 := snd (refresh config_py m (start 0)) in
   let s1 := snd (submit_replicas config_py m (announced config_py s0)) in
   let s2 := snd (attempt config_py m (backed_off s1)) in
   buy_step config_py m (announced config_py s0) = (Ok tt, s2)) /\
  (let m := test_module 1 (at_calls [2%nat; 3%nat]) in
   let s0 := snd (refresh config_py m (start 0)) in
   let s1 := snd (submit_replicas config_py m (announced config_py s0)) in
   let s2 := snd (attempt config_py m (backed_off s1)) in
   buy_loop config_py m 1 s0 = (Ok tt, stalled s2)).
Proof.
  split.
  - intros m s0 s1 s2.
    refine (proj1 (proj1 (proj2
      (failed_submission_retried_once config_py m 0 s0 s1 (Remote "swap") _ _))
      s2 _)); vm_compute; reflexivity.
  - intros m s0 s1 s2.
    refine (proj1 (proj2 (proj2 (proj2 (proj2
      (failed_submission_retried_once config_py m 0 s0 s1 (Remote "swap") _ _))
      (Remote "swap") s2 _)))); vm_compute; reflexivity.
Defined.

(** C2 as the specification words it, where the first submission of a
    round is rejected and the position read after the retry raises: the three
    resubmissions that follow the 30-second backoff are all accepted, and
    the round still reports the final error and leaves the buy loop, since
    the read of line 106 sits in the same [try] as the resubmissions. *)
Lemma retried_submission_accepted_yet_stalled :
  let run := bot config_py (test_module 1 (at_calls [2%nat; 6%nat])) 1 20
               (start 0) in
  let l := log (snd run) in
  fst run = Ok tt /\
  List.length (buys (after_retry_notice l)) = 3%nat /\
  ~ (existsb rejected_buy l = true ->
     forallb accepted_buy (buys (after_retry_notice l)) = true ->
     existsb stalled_notice l = false).
Proof.
  vm_compute. split; [reflexivity|]. split; [reflexivity|].
  intros H. discriminate (H eq_refl eq_refl).
Qed.

(** ** What a refresh leaves behind *)

Lemma orders_app (l l' : list event) : orders (l ++ l') = orders l ++ orders l'.
Proof. apply filter_app. Qed.

Lemma elapsed_app (l l' : list event) : elapsed (l ++ l') = elapsed l + elapsed l'.
Proof.
  induction l as [|ev l IH]; simpl; [reflexivity|].
  destruct ev; rewrite IH; lia.
Qed.

Section Refresh.

Context {W : Type}.
Variable cfg : config.
Variable n : pymodule W.

(** A call that returns logs itself and changes the world only. *)
Lemma invoke_ok A (name : string) (f : call A) (ev : exn + A -> event)
    (s s1 : state W) (a : A) :
  invoke n name f ev s = (Ok a, s1) ->
  binds (names n) name = true /\
  f (world s) = (inr a, world s1) /\
  vars s1 = vars s /\ log s1 = log s ++ [ev (inr a)] /\
  next_run s1 = next_run s.
Proof.
  unfold invoke. destruct (binds (names n) name); [|discriminate].
  destruct (f (world s)) as [[e|a'] w]; [discriminate|].
  intros H. inversion H; subst. simpl. auto.
Qed.


Lemma fetch_ok (s s1 : state W) :
  fetch cfg n s = (Ok tt, s1) ->
  log s1 = log s ++ [GetPosition (symbol cfg) (inr (pos (vars s1)));
                     TokenPrice (symbol cfg) (inr (price (vars s1)))] /\
  pos_usd (vars s1) = pos_usd (vars s) /\
  chunk_size (vars s1) = chunk_size (vars s) /\
  next_run s1 = next_run s.
Proof.
  unfold fetch, fetch_pos, n_get_position, n_token_price, bind.
  destruct (invoke n "get_position" _ _ s) as [[p| |e|] sa] eqn:Ea;
    try discriminate.
  apply invoke_ok in Ea. destruct Ea as (_ & _ & Hv & Hl & Hn).
  unfold set_pos at 1, assign at 1. cbv beta iota.
  match goal with |- context [invoke n "token_price" ?f ?ev ?st] =>
    destruct (invoke n "token_price" f ev st) as [[q| |e|] sb] eqn:Eb
  end; try discriminate.
  apply invoke_ok in Eb. destruct Eb as (_ & _ & Hv' & Hl' & Hn').
  simpl in Hv', Hl', Hn'.
  unfold set_price, assign. intros H. inversion H; subst; clear H. simpl.
  rewrite Hv', Hl', Hl, Hv, Hn', Hn. simpl.
  rewrite <- app_assoc. auto.
Qed.

Lemma size_chunk_ok (s s1 : state W) :
  size_chunk cfg s = (Ok tt, s1) ->
  log s1 = log s /\ world s1 = world s /\ next_run s1 = next_run s /\
  pos (vars s1) = pos (vars s) /\ price (vars s1) = price (vars s) /\
  pos_usd (vars s1) = (pos (vars s) * price (vars s))%float.
Proof.
  unfold size_chunk, bind, read, set_pos_usd, set_size_needed,
    set_chunk_size, assign, lift; simpl.
  destruct (py_int _); simpl; [discriminate|].
  intros H. inversion H; subst; clear H. simpl. auto 10.
Qed.

Lemma refresh_ok (s s1 : state W) :
  refresh cfg n s = (Ok tt, s1) ->
  log s1 = log s ++ [GetPosition (symbol cfg) (inr (pos (vars s1)));
                     TokenPrice (symbol cfg) (inr (price (vars s1)))] /\
  pos_usd (vars s1) = (pos (vars s1) * price (vars s1))%float /\
  next_run s1 = next_run s.
Proof.
  unfold refresh, bind.
  destruct (fetch cfg n s) as [[[]| |e|] sa] eqn:Ea; try discriminate.
  intros Hb. apply fetch_ok in Ea. apply size_chunk_ok in Hb.
  destruct Ea as (Hl & _ & _ & Hn).
  destruct Hb as (Hl' & _ & Hn' & Hp & Hq & Hv).
  rewrite Hl', Hl, Hp, Hq, Hv, Hn', Hn. auto.
Qed.

End Refresh.

(** ** Replicas *)

Section Replicas.

Context {W : Type}.
Variable cfg : config.
Variable n : pymodule W.

Lemma buys_app (l l' : list event) : buys (l ++ l') = buys l ++ buys l'.
Proof. apply filter_app. Qed.

(** A round's submissions that all go through are [orders_per_open] buys
    of one and the same chunk: submissions come in multiples of the
    replica count. *)
Lemma replicas_per_round (s s' : state W) :
  submit_replicas cfg n s = (Ok tt, s') ->
  buys (log s')
  = buys (log s) ++
    repeat (MarketBuy (symbol cfg) (chunk_size (vars s)) (slippage cfg)
              (inr tt))
           (orders_per_open cfg).
Proof.
  unfold submit_replicas. generalize (orders_per_open cfg) as k.
  intros k. revert s.
  induction k as [|k IH]; intros s; simpl.
  - intros H. inversion H; subst. rewrite app_nil_r. reflexivity.
  - rewrite bind_assoc, bind_read. cbv beta. unfold n_market_buy.
    rewrite bind_assoc. unfold bind at 1.
    destruct (invoke n "market_buy" _ _ s) as [[[]| |e|] s1] eqn:E;
      try discriminate.
    apply invoke_ok in E. destruct E as (_ & _ & Hv & Hl & _).
    cbv beta iota. rewrite bind_assoc, bind_print.
    rewrite bind_sleep by lia. intros H. apply IH in H.
    rewrite H. simpl. rewrite Hv, Hl, !buys_app. simpl.
    rewrite !app_nil_r, <- app_assoc. reflexivity.
Qed.

End Replicas.

(** ** The scenario: target 5, cap 1, nothing held *)

(** C3, as the code has it.  With [config.py] ([usd_size = 5],
    [max_usd_order_size = 1], [orders_per_open = 3]), nothing held, a
    price of 1 and a venue that accepts and fills every order, [bot] in
    buy mode submits exactly 6 orders, each of one dollar (amount
    ["1000000"]) and each accepted: two rounds of three replicas; it then
    reports the position filled (at 6) and returns.  With one replica per
    round instead of three, the submissions are exactly 5. *)
Theorem accumulate_scenario (fuel : nat) :
  let order :=
    MarketBuy (symbol config_py) (VStr "1000000") 199 (inr tt) in
  let run := bot config_py (test_module 1 never) 1 (3 + fuel) (start 0) in
  let single :=
    bot (with_replicas 1 config_py) (test_module 1 never) 1 (6 + fuel)
        (start 0) in
  fst run = Ok tt /\
  buys (log (snd run)) = repeat order 6 /\
  orders (log (snd run)) = buys (log (snd run)) /\
  In (Print "position filled of {} total: ${}" [VStr "pump"; VFloat 6])
     (log (snd run)) /\
  fst single = Ok tt /\
  buys (log (snd single)) = repeat order 5.
Proof.
  vm_compute. repeat split; try reflexivity. tauto.
Qed.

(** C3 as the specification words it: 5 submissions.  The run
    submits 6. *)
Lemma five_submissions_refuted :
  ~ (List.length (buys (log (snd (bot config_py (test_module 1 never) 1 20
                               (start 0))))) = 5%nat).
Proof. vm_compute. discriminate. Qed.


(** ** Buy mode when the position is already filled *)

Section Filled.

Context {W : Type}.
Variable cfg : config.
Variable n : pymodule W.

(** The state after the report of a position found filled on entry: the
    notice, the 7867678-second sleep, the total. *)
Lemma open_body_filled (fuel : nat) (s0 s1 : state W) :
  refresh cfg n (emit (Print "opening buying position" []) s0) = (Ok tt, s1) ->
  fgt (pos_usd (vars s1)) (filled_level cfg) = true ->
  open_body cfg n (S fuel) s0
  = (Break,
     emit (Print "position filled of {} total: ${}"
             [VStr (last4 (symbol cfg)); VFloat (pos_usd (vars s1))])
       (emit (Sleep 7867678) (emit (Print "position filled" []) s1))).
Proof.
  intros Hr Hgt. unfold open_body, buy_loop, report_filled.
  unfold bind at 1. simpl.
  rewrite (bind_ok _ _ _ _ _ _ tt Hr).
  unfold bind at 1. unfold when at 1. rewrite Hgt.
  unfold bind at 1. simpl. unfold bind at 1. simpl.
  rewrite (fgt_not_flt _ _ Hgt). reflexivity.
Qed.

Lemma bot_buy_mode_break (fuel : nat) (s s' : state W) :
  open_body cfg n (S fuel)
    (emit (Print "bot successfully closed position..." []) s) = (Break, s') ->
  bot cfg n 1 (S fuel) s
  = (Ok tt, emit (Print "COMPLETE THANKS MOON DEV!" []) s').
Proof.
  intros H. unfold bot.
  rewrite (bind_ok _ _ _ _ _ _ tt (while_done _ _ _ _ eq_refl)).
  rewrite bind_print.
  rewrite (bind_ok _ _ _ _ _ _ tt (while_break _ _ _ _ _ eq_refl H)).
  do 3 rewrite (bind_ok _ _ _ _ _ _ tt (while_done _ _ _ _ eq_refl)).
  reflexivity.
Qed.

(** C4, as the code has it.  When buy mode finds the position value at or
    above the target [usd_size] (and [.97 * usd_size] is below
    [usd_size], as for every ordinary positive target), the invocation
    submits no order and reports the position filled, but it does not
    return at once: it sleeps 7867678 seconds after the report, and only
    then prints the total and returns normally. *)
Theorem filled_position_reported_then_slept (fuel : nat) (s s1 : state W) :
  refresh cfg n
    (emit (Print "opening buying position" [])
       (emit (Print "bot successfully closed position..." []) s))
    = (Ok tt, s1) ->
  flt (filled_level cfg) (usd_size cfg) = true ->
  fle (usd_size cfg) (pos_usd (vars s1)) = true ->
  exists out : state W,
    bot cfg n 1 (S fuel) s = (Ok tt, out) /\
    log out = log s1 ++
      [Print "position filled" []; Sleep 7867678;
       Print "position filled of {} total: ${}"
         [VStr (last4 (symbol cfg)); VFloat (pos_usd (vars s1))];
       Print "COMPLETE THANKS MOON DEV!" []] /\
    orders (log out) = orders (log s) /\
    elapsed (log out) = elapsed (log s) + 7867678.
Proof.
  intros Hr Hlevel Hle.
  assert (Hgt : fgt (pos_usd (vars s1)) (filled_level cfg) = true)
    by exact (flt_fle_trans _ _ _ Hlevel Hle).
  eexists. split.
  - apply bot_buy_mode_break. apply open_body_filled; [exact Hr | exact Hgt].
  - destruct (refresh_ok cfg n _ _ Hr) as (Hl & _ & _).
    assert (G : forall (a b c d : event) (st : state W),
               log (emit a (emit b (emit c (emit d st))))
               = log st ++ [d; c; b; a]).
    { intros. unfold emit; simpl. rewrite <- !app_assoc. reflexivity. }
    rewrite G. split; [reflexivity|].
    rewrite Hl. simpl. rewrite <- !app_assoc.
    split.
    + rewrite !orders_app. simpl. rewrite !app_nil_r. reflexivity.
    + rewrite !elapsed_app. simpl. lia.
Qed.

End Filled.

Lemma filled_position_reported_then_slept_witness :
  exists out : state venue_state,
    bot config_py (test_module 1 never) 1 1 (start 5) = (Ok tt, out) /\
    log out = log (snd (refresh config_py (test_module 1 never)
                     (emit (Print "opening buying position" [])
                        (emit (Print "bot successfully closed position..." [])
                           (start 5))))) ++
      [Print "position filled" []; Sleep 7867678;
       Print "position filled of {} total: ${}" [VStr "pump"; VFloat 5];
       Print "COMPLETE THANKS MOON DEV!" []] /\
    orders (log out) = [] /\
    elapsed (log out) = 0 + 7867678.
Proof.
  apply (filled_position_reported_then_slept config_py (test_module 1 never)
           0 (start 5)
           (snd (refresh config_py (test_module 1 never)
                   (emit (Print "opening buying position" [])
                      (emit (Print "bot successfully closed position..." [])
                         (start 5))))));
    vm_compute; reflexivity.
Defined.

(** C4 as the specification words it, at a position of 5 against the
    target of 5: no order
    is issued, but the invocation is not over at once; it has slept for
    7867678 seconds when it returns. *)
Lemma filled_position_blocks :
  let run := bot config_py (test_module 1 never) 1 20 (start 5) in
  ~ (fst run = Ok tt /\ orders (log (snd run)) = [] /\
     elapsed (log (snd run)) = 0).
Proof. vm_compute. intros (_ & _ & H). discriminate H. Qed.

(** ** A market data read that fails *)

Section FailedRead.

Context {W : Type}.
Variable cfg : config.
Variable n : pymodule W.


Lemma refresh_raise (s s1 : state W) (e : exn) :
  fetch cfg n s = (Raise e, s1) -> refresh cfg n s = (Raise e, s1).
Proof. intros H. unfold refresh. apply bind_raise, H. Qed.

Lemma fetch_raise_pos (s s1 : state W) (e : exn) :
  fetch_pos cfg n s = (Raise e, s1) -> fetch cfg n s = (Raise e, s1).
Proof. intros H. unfold fetch. apply bind_raise, H. Qed.


(** Where each mode makes its first read, and what a failure there does
    to the invocation. *)
Lemma bot_close_raise (fuel : nat) (s s1 : state W) (e : exn) :
  fetch_pos cfg n (emit (Print "closing position" []) s) = (Raise e, s1) ->
  bot cfg n 0 (S fuel) s = (Raise e, s1).
Proof.
  intros H. unfold bot. apply bind_raise. apply while_raise; [reflexivity|].
  unfold close_body. rewrite bind_print. apply bind_raise, H.
Qed.

Lemma bot_buy_raise (fuel : nat) (s s1 : state W) (e : exn) :
  refresh cfg n
    (emit (Print "opening buying position" [])
       (emit (Print "bot successfully closed position..." []) s))
    = (Raise e, s1) ->
  bot cfg n 1 (S fuel) s = (Raise e, s1).
Proof.
  intros H. unfold bot.
  rewrite (bind_ok _ _ _ _ _ _ tt (while_done _ _ _ _ eq_refl)).
  rewrite bind_print. apply bind_raise. apply while_raise; [reflexivity|].
  unfold open_body. rewrite bind_print. apply bind_raise, H.
Qed.

Lemma bot_mm_raise (fuel : nat) (s s1 : state W) (e : exn) :
  refresh cfg n
    (emit (Print "market maker buying below {} and selling above {}"
             [VFloat (buy_under cfg); VFloat (sell_over cfg)])
       (emit (Print "bot successfully closed position..." []) s))
    = (Raise e, s1) ->
  bot cfg n 5 (S fuel) s = (Raise e, s1).
Proof.
  intros H. unfold bot.
  rewrite (bind_ok _ _ _ _ _ _ tt (while_done _ _ _ _ eq_refl)).
  rewrite bind_print.
  do 2 rewrite (bind_ok _ _ _ _ _ _ tt (while_done _ _ _ _ eq_refl)).
  apply bind_raise. apply while_raise; [reflexivity|].
  unfold mm_body. rewrite bind_print. apply bind_raise, H.
Qed.


End FailedRead.



(** ** The market-maker round *)

Section MarketMaker.

Context {W : Type}.
Variable cfg : config.
Variable n : pymodule W.

Lemma mm_body_step (s : state W) :
  mm_body cfg n s
  = bind (refresh cfg n) (fun _ => mm_decide cfg n) (mm_announced cfg s).
Proof. reflexivity. Qed.

(** Sizing logs nothing and leaves the price read. *)
Lemma size_chunk_silent (s : state W) :
  log (snd (size_chunk cfg s)) = log s /\
  price (vars (snd (size_chunk cfg s))) = price (vars s) /\
  (forall a s', size_chunk cfg s = (a, s') -> a <> Break /\ a <> Timeout).
Proof.
  unfold size_chunk, bind, read, set_pos_usd, set_size_needed,
    set_chunk_size, assign, lift; simpl.
  destruct (py_int _); simpl;
    (split; [reflexivity|]; split; [reflexivity|]);
    intros o st H; inversion H; subst; split; discriminate.
Qed.

Lemma mm_idle_run (s : state W) :
  mm_idle cfg s
  = (Ok tt,
     emit (Sleep 30)
       (emit (Print
          "price is {} and not buying or selling position is {} and usd size is {}"
          [VFloat (price (vars s)); VFloat (pos_usd (vars s));
           VFloat (usd_size cfg)]) s)).
Proof. reflexivity. Qed.

Lemma mm_decide_idle (s : state W) :
  fle (buy_under cfg) (price (vars s)) = true ->
  fle (price (vars s)) (sell_over cfg) = true ->
  mm_decide cfg n s = mm_idle cfg s.
Proof.
  intros Hlo Hhi. unfold mm_decide.
  rewrite (fle_not_fgt _ _ Hhi).
  assert (G : flt (price (vars s)) (buy_under cfg) = false)
    by exact (fle_not_fgt _ _ Hlo).
  rewrite G. reflexivity.
Qed.

(** C7.  In a market-maker round whose reads give a price with
    [buy_under <= price <= sell_over], either threshold included, no order
    is issued, whether or not the sizing that follows the reads goes
    through; when it does, the round takes the [else] branch: it ends
    normally after the idle line and a 30-second sleep. *)
Theorem dead_band_no_order (s s1 : state W) :
  fetch cfg n (mm_announced cfg s) = (Ok tt, s1) ->
  fle (buy_under cfg) (price (vars s1)) = true ->
  fle (price (vars s1)) (sell_over cfg) = true ->
  orders (log (snd (mm_body cfg n s))) = orders (log s) /\
  (forall s2, size_chunk cfg s1 = (Ok tt, s2) ->
     mm_body cfg n s = mm_idle cfg s2 /\ fst (mm_body cfg n s) = Ok tt).
Proof.
  intros Hf Hlo Hhi.
  destruct (fetch_ok cfg n _ _ Hf) as (Hl & _).
  destruct (size_chunk_silent s1) as (Hsl & Hsp & Hso).
  assert (Hbase : orders (log s1) = orders (log s)).
  { rewrite Hl. unfold mm_announced, emit; simpl.
    rewrite !orders_app. simpl. rewrite !app_nil_r. reflexivity. }
  assert (Hidle : forall s2, size_chunk cfg s1 = (Ok tt, s2) ->
                    mm_body cfg n s = mm_idle cfg s2).
  { intros s2 Hs2. rewrite mm_body_step. unfold refresh.
    rewrite bind_assoc. rewrite (bind_ok _ _ _ _ _ _ tt Hf).
    rewrite (bind_ok _ _ _ _ _ _ tt Hs2).
    rewrite Hs2 in Hsp. simpl in Hsp.
    apply mm_decide_idle; rewrite Hsp; assumption. }
  split.
  - destruct (size_chunk cfg s1) as [[[]| |e|] s2] eqn:Hs2.
    + rewrite (Hidle s2 eq_refl), mm_idle_run. simpl in Hsl.
      unfold emit; simpl. rewrite Hsl, !orders_app. simpl.
      rewrite !app_nil_r. exact Hbase.
    + destruct (Hso _ _ eq_refl) as [G _]. congruence.
    + rewrite mm_body_step. unfold refresh. rewrite bind_assoc.
      rewrite (bind_ok _ _ _ _ _ _ tt Hf).
      rewrite (bind_raise _ _ _ _ _ _ e Hs2). simpl in *.
      rewrite Hsl. exact Hbase.
    + destruct (Hso _ _ eq_refl) as [_ G]. congruence.
  - intros s2 Hs2. split; [apply Hidle, Hs2|].
    rewrite (Hidle s2 Hs2). reflexivity.
Qed.

Lemma mm_decide_sell (s : state W) :
  fgt (price (vars s)) (sell_over cfg) = true ->
  mm_decide cfg n s = mm_sell cfg n s.
Proof. intros H. unfold mm_decide. rewrite H. reflexivity. Qed.

(** The sell branch: the notice, the kill, and, when the kill returns, the
    closing line and a 15-second sleep. *)
Lemma mm_sell_run (s : state W) :
  binds (names n) "chunk_kill" = true ->
  mm_sell cfg n s
  = let (r, w) := chunk_kill (impl n) (symbol cfg) (max_usd_order_size cfg)
                    (slippage cfg) (world s) in
    let killed :=
      {| world := w; vars := vars s;
         log := (log s ++
                 [Print "selling {} bc price is {} and sell over is {}"
                    [VStr (last4 (symbol cfg)); VFloat (price (vars s));
                     VFloat (sell_over cfg)]]) ++
                [ChunkKill (symbol cfg) (max_usd_order_size cfg)
                   (slippage cfg) r];
         next_run := next_run s |} in
    match r with
    | inl e => (Raise e, killed)
    | inr _ =>
        (Ok tt,
         emit (Sleep 15)
           (emit (Print
              "chunk kill complete... thank you moon dev you are my savior 777"
              []) killed))
    end.
Proof.
  intros Hb. unfold mm_sell. rewrite bind_read, bind_print.
  unfold n_chunk_kill, bind, invoke. simpl. rewrite Hb.
  destruct (chunk_kill _ _ _ _ _) as [[e|[]] w]; reflexivity.
Qed.

(** C6.  In a market-maker round whose reads and sizing go through with
    [price > sell_over], the round calls [chunk_kill] on the position,
    with the cap and the slippage of the configuration, exactly once, and
    submits nothing else: the sell test comes first, so neither
    [buy_under] nor the holdings are looked at.  The round then ends the
    way the kill does. *)
Theorem above_sell_over_kills (s s1 : state W) :
  binds (names n) "chunk_kill" = true ->
  refresh cfg n (mm_announced cfg s) = (Ok tt, s1) ->
  fgt (price (vars s1)) (sell_over cfg) = true ->
  let kill := chunk_kill (impl n) (symbol cfg) (max_usd_order_size cfg)
                (slippage cfg) (world s1) in
  orders (log (snd (mm_body cfg n s)))
    = orders (log s) ++
      [ChunkKill (symbol cfg) (max_usd_order_size cfg) (slippage cfg)
         (fst kill)] /\
  fst (mm_body cfg n s)
    = match fst kill with inl e => Raise e | inr _ => Ok tt end.
Proof.
  intros Hb Hr Hgt kill.
  destruct (refresh_ok cfg n _ _ Hr) as (Hl & _).
  rewrite mm_body_step, (bind_ok _ _ _ _ _ _ tt Hr), (mm_decide_sell _ Hgt).
  rewrite (mm_sell_run s1 Hb). fold kill.
  destruct kill as [[e|[]] w]; simpl;
    rewrite Hl; unfold mm_announced, emit; simpl;
    rewrite !orders_app; simpl; rewrite !app_nil_r; auto.
Qed.

End MarketMaker.

Lemma dead_band_no_order_witness :
  orders (log (snd (mm_body config_py (test_module 1 never) (start 0)))) = [] /\
  orders (log (snd (mm_body config_py (test_module 0.0946 never) (start 0))))
  = [].
Proof.
  split.
  - refine (proj1 (dead_band_no_order config_py (test_module 1 never) (start 0)
                     (snd (fetch config_py (test_module 1 never)
                             (mm_announced config_py (start 0)))) _ _ _));
      vm_compute; reflexivity.
  - refine (proj1 (dead_band_no_order config_py (test_module 0.0946 never)
                     (start 0)
                     (snd (fetch config_py (test_module 0.0946 never)
                             (mm_announced config_py (start 0)))) _ _ _));
      vm_compute; reflexivity.
Defined.

Lemma above_sell_over_kills_witness :
  orders (log (snd (mm_body config_py (test_module 2 never) (start 3))))
  = [] ++ [ChunkKill (symbol config_py) 1 199 (inr tt)] /\
  fst (mm_body config_py (test_module 2 never) (start 3)) = Ok tt.
Proof.
  refine (above_sell_over_kills config_py (test_module 2 never) (start 3)
            (snd (refresh config_py (test_module 2 never)
                    (mm_announced config_py (start 3)))) _ _ _);
    vm_compute; reflexivity.
Defined.

(** ** The scheduler loop *)

Section Stable.

Context {W : Type}.
Variable cfg : config.
Variable n : pymodule W.
Variable buy : Z.
Variable Inv : state W -> Prop.
Hypothesis Inv_stable : stable Inv.

Lemma stable_print text args : keeps Inv (print text args).
Proof. intros s Hs. apply Inv_stable; [exact I | exact Hs]. Qed.

Lemma stable_sleep secs : keeps Inv (sleep secs).
Proof.
  intros s Hs. unfold sleep. destruct (Z.ltb_spec secs 0); [exact Hs|].
  apply Inv_stable; [exact H | exact Hs].
Qed.

Lemma stable_assign f : keeps Inv (assign f).
Proof. intros s Hs. apply Inv_stable, Hs. Qed.

Lemma stable_invoke A (name : string) (f : call A) (ev : exn + A -> event) :
  (forall r, sound_event (ev r)) -> keeps Inv (invoke n name f ev).
Proof.
  intros Hev s Hs. unfold invoke. destruct (binds (names n) name); [|exact Hs].
  destruct (f (world s)) as [r w].
  assert (G : Inv {| world := w; vars := vars s; log := log s ++ [ev r];
                     next_run := next_run s |}).
  { apply (proj2 Inv_stable (emit (ev r) s) w (vars s)).
    apply Inv_stable; [apply Hev | exact Hs]. }
  destruct r; exact G.
Qed.

Ltac keep_stable :=
  repeat first
    [ apply keeps_bind; [|intros ?]
    | apply keeps_try | apply keeps_when | apply keeps_while
    | apply keeps_while_else | apply keeps_for_range
    | apply keeps_ret | apply keeps_break | apply keeps_read
    | apply keeps_lift | apply stable_print | apply stable_sleep
    | apply stable_assign
    | apply stable_invoke; intros ?; exact I ].

Lemma refresh_stable : keeps Inv (refresh cfg n).
Proof.
  unfold refresh, fetch, fetch_pos, size_chunk, n_get_position,
    n_token_price, set_pos, set_price, set_pos_usd, set_size_needed,
    set_chunk_size.
  keep_stable.
Qed.

Lemma mm_decide_stable : keeps Inv (mm_decide cfg n).
Proof.
  intros s Hs. unfold mm_decide.
  destruct (fgt (price (vars s)) (sell_over cfg)).
  - revert s Hs. unfold mm_sell, n_chunk_kill. keep_stable.
  - destruct (flt (price (vars s)) (buy_under cfg)
              && flt (pos_usd (vars s)) (usd_size cfg)).
    + revert s Hs. unfold mm_buy, n_elegant_entry.
      apply keeps_bind; [apply stable_sleep | intros _].
      apply keeps_bind; [apply refresh_stable | intros _].
      keep_stable.
    + revert s Hs. unfold mm_idle. keep_stable.
Qed.

Lemma attempt_stable : keeps Inv (attempt cfg n).
Proof.
  unfold attempt, submit_replicas, n_market_buy.
  apply keeps_bind; [keep_stable | intros _].
  apply keeps_bind; [apply stable_sleep | intros _].
  apply refresh_stable.
Qed.

Lemma bot_stable (fuel : nat) : keeps Inv (bot cfg n buy fuel).
Proof.
  unfold bot.
  apply keeps_bind; [apply keeps_while | intros _].
  { unfold close_body, kill_round, fetch_pos, n_chunk_kill, n_get_position,
      set_pos. keep_stable. }
  apply keeps_bind; [apply stable_print | intros _].
  apply keeps_bind; [apply keeps_while | intros _].
  { unfold open_body, buy_loop, report_filled.
    apply keeps_bind; [apply stable_print | intros _].
    apply keeps_bind; [apply refresh_stable | intros _].
    apply keeps_bind; [keep_stable | intros _].
    apply keeps_bind; [apply keeps_while | intros _; keep_stable].
    unfold buy_round, buy_step, retry, give_up_buy.
    do 3 (apply keeps_bind; [apply keeps_read | intros ?]).
    apply keeps_bind; [apply stable_print | intros _].
    apply keeps_bind.
    - apply keeps_try; [apply attempt_stable|].
      apply keeps_try; [|keep_stable].
      apply keeps_bind; [apply stable_print | intros _].
      apply keeps_bind; [apply stable_sleep | intros _].
      apply attempt_stable.
    - intros _. apply keeps_bind; [apply stable_sleep | intros _].
      apply refresh_stable. }
  apply keeps_bind; [apply keeps_while, stable_print | intros _].
  apply keeps_bind; [apply keeps_while | intros _].
  { unfold mm_body.
    apply keeps_bind; [apply stable_print | intros _].
    apply keeps_bind; [apply refresh_stable | intros _].
    apply mm_decide_stable. }
  apply keeps_bind; [apply keeps_while, stable_print | intros _].
  apply keeps_while_else; apply stable_print.
Qed.

End Stable.

Section Scheduler.

Context {W : Type}.
Variable cfg : config.
Variable n : pymodule W.
Variable buy : Z.

Lemma still_due_stable (s : state W) : stable (still_due s).
Proof.
  split.
  - intros s' ev Hev [Hn Ht]. split; [exact Hn|].
    unfold now, emit in *; simpl. rewrite elapsed_app.
    destruct ev; simpl in *; lia.
  - intros s' w fr [Hn Ht]. split; assumption.
Qed.

Lemma still_due_refl (s : state W) : still_due s s.
Proof. split; [reflexivity | lia]. Qed.

(** A loop never ends by [break]. *)
Lemma while_unbroken (fuel : nat) (c : state W -> bool) (body : M W unit)
    (s : state W) :
  fst (while fuel c body s) <> Break.
Proof.
  revert s. induction fuel as [|fuel IH]; intros s; simpl; [discriminate|].
  destruct (c s); [|discriminate].
  destruct (body s) as [[[]| |e|] s']; simpl; try discriminate. apply IH.
Qed.

Lemma while_else_unbroken (fuel : nat) (c : state W -> bool)
    (body orelse : M W unit) (s : state W) :
  (forall s', fst (orelse s') <> Break) ->
  fst (while_else fuel c body orelse s) <> Break.
Proof.
  intros Ho. revert s.
  induction fuel as [|fuel IH]; intros s; simpl; [discriminate|].
  destruct (c s); [|apply Ho].
  destruct (body s) as [[[]| |e|] s']; simpl; try discriminate. apply IH.
Qed.

Lemma bind_unbroken A B (m : M W A) (k : A -> M W B) (s : state W) :
  fst (m s) <> Break -> (forall a s', fst (k a s') <> Break) ->
  fst (bind m k s) <> Break.
Proof.
  intros Hm Hk. unfold bind.
  destruct (m s) as [[a| |e|] s']; simpl in *;
    try discriminate; [apply Hk | congruence].
Qed.

Lemma bot_unbroken (fuel : nat) (s : state W) :
  fst (bot cfg n buy fuel s) <> Break.
Proof.
  unfold bot.
  repeat (apply bind_unbroken;
          [first [apply while_unbroken | discriminate] | intros _ ?]).
  apply while_else_unbroken. discriminate.
Qed.

(** One pass of the [while True] body ends normally, unless a loop inside
    [bot] is still running: it never raises and never leaves the loop. *)
Lemma tick_survives (fuel : nat) (s : state W) :
  fst (tick cfg n buy fuel s) = Ok tt \/ fst (tick cfg n buy fuel s) = Timeout.
Proof.
  assert (H : forall o s', tick cfg n buy fuel s = (o, s') ->
                o = Ok tt \/ o = Timeout).
  { unfold tick, try_except. unfold bind at 1. unfold run_pending.
    destruct (next_run s <=? now s).
    - unfold bind at 1.
      pose proof (bot_unbroken fuel s) as Hb.
      destruct (bot cfg n buy fuel s) as [[[]| |e|] s0]; simpl in *;
        intros o s' H; inversion H; subst; auto; congruence.
    - simpl. intros o s' H; inversion H; subst; auto. }
  destruct (tick cfg n buy fuel s) as [o s']. apply (H o s' eq_refl).
Qed.

Lemma forever (k : nat) (body : M W unit) (s : state W) :
  (forall s', fst (body s') = Ok tt \/ fst (body s') = Timeout) ->
  fst (while k (fun _ => true) body s) = Timeout.
Proof.
  intros Hb. revert s. induction k as [|k IH]; intros s; simpl; [reflexivity|].
  destruct (Hb s) as [H | H]; destruct (body s) as [[[]| |e|] s'];
    simpl in *; try discriminate; auto.
Qed.

(** X18.  The [while True] loop around [schedule.run_pending()] cannot be
    left: however many passes it is granted, it is still running, neither
    returned nor stopped by an exception, since a pass never raises.  When
    the job is due and the invocation of [bot] it triggers raises, the
    bare [except] catches the exception, prints, and sleeps 15 seconds
    ([cooled_down]); the pass ends normally, the job has not been
    rescheduled and is still due, so the next pass runs [bot] again. *)
Theorem scheduler_survives_faults (fuel : nat) (s : state W) :
  (forall k, fst (while k (fun _ => true) (tick cfg n buy fuel) s) = Timeout) /\
  fst (scheduler cfg n buy fuel s) = Timeout /\
  (forall e s1,
     next_run s <= now s ->
     bot cfg n buy fuel s = (Raise e, s1) ->
     tick cfg n buy fuel s = (Ok tt, cooled_down s1) /\
     log (cooled_down s1)
       = log s1 ++ [Print "*** error, sleeping" []; Sleep 15] /\
     next_run (cooled_down s1) <= now (cooled_down s1) /\
     run_pending cfg n buy fuel (cooled_down s1)
       = bind (bot cfg n buy fuel) (fun _ => schedule_every 30)
           (cooled_down s1)).
Proof.
  split; [|split].
  - intros k. apply forever. intros s'. apply tick_survives.
  - unfold scheduler. apply forever. intros s'. apply tick_survives.
  - intros e s1 Hdue Hraise.
    assert (Hkeep : still_due s s1).
    { pose proof (bot_stable cfg n buy (still_due s) (still_due_stable s)
                    fuel s (still_due_refl s)) as H.
      rewrite Hraise in H. exact H. }
    assert (Hdue' : next_run (cooled_down s1) <= now (cooled_down s1)).
    { destruct Hkeep as [Hn Ht]. unfold cooled_down, now, emit in *; simpl.
      rewrite !elapsed_app. simpl. lia. }
    split; [|split; [|split]].
    + unfold tick, try_except. unfold bind at 1. unfold run_pending.
      apply Z.leb_le in Hdue. rewrite Hdue.
      rewrite (bind_raise _ _ _ _ _ _ e Hraise). reflexivity.
    + unfold cooled_down, emit; simpl. rewrite <- app_assoc. reflexivity.
    + exact Hdue'.
    + unfold run_pending. apply Z.leb_le in Hdue'. rewrite Hdue'. reflexivity.
Qed.

End Scheduler.

Lemma scheduler_survives_faults_witness :
  let m := test_module 1 (at_calls [0%nat]) in
  let s1 := snd (bot config_py m 1 3 (start 0)) in
  tick config_py m 1 3 (start 0) = (Ok tt, cooled_down s1) /\
  next_run (cooled_down s1) <= now (cooled_down s1).
Proof.
  intros m s1.
  destruct (proj2 (proj2 (scheduler_survives_faults config_py m 1 3 (start 0)))
              (Remote "position") s1) as (H1 & _ & H2 & _).
  - vm_compute. discriminate.
  - vm_compute. reflexivity.
  - split; [exact H1 | exact H2].
Defined.

(** ** The first invocation is not guarded *)

(** C8.  The [try] of lines 200-205 guards the invocations the loop makes,
    not the first one, the [bot()] of line 195.  In mode 1, when the first
    position read raises, the exception leaves the script: nothing is
    caught, no cooldown notice is printed, nothing is slept and no job has
    been scheduled.  In mode 5, where [bot] does not return and every
    round therefore belongs to that first invocation, a read that raises in
    the third round, after two good rounds of 30 seconds each, ends the
    script in the same way.  Both hold however long the script is
    followed.  The same fault in an invocation made by the loop is caught:
    with the position already filled the first invocation returns, the job
    comes due after ten passes that only sleep, its position read raises,
    the cooldown notice is printed, and the loop is still running after
    twelve passes. *)
Theorem first_invocation_fault_ends_process (fuel : nat) :
  (let run := main config_py (test_module 1 (at_calls [0%nat])) 1 (1 + fuel)
                (start 0) in
   fst run = Raise (Remote "position") /\
   existsb cooldown_notice (log (snd run)) = false /\
   elapsed (log (snd run)) = 0 /\
   next_run (snd run) = 0) /\
  (let run := main config_py (test_module 1 (at_calls [4%nat])) 5 (3 + fuel)
                (start 0) in
   fst run = Raise (Remote "position") /\
   existsb cooldown_notice (log (snd run)) = false /\
   elapsed (log (snd run)) = 60 /\
   next_run (snd run) = 0) /\
  (let run := main config_py (test_module 1 (at_calls [2%nat])) 1 12
                (start 5) in
   fst run = Timeout /\
   existsb cooldown_notice (log (snd run)) = true /\
   existsb failed_read (log (snd run)) = true).
Proof.
  split; [|split]; vm_compute; repeat split; reflexivity.
Qed.

(** ** The helpers [ezbot.py] calls and [nice_funcs.py] does not define *)

Section Missing.

Context {W : Type}.
Variable cfg : config.
Variable remote : helpers W.

Lemma fetch_pos_missing (n : pymodule W) (s : state W) :
  binds (names n) "get_position" = false ->
  fetch_pos cfg n s = (Raise (AttributeError "nice_funcs" "get_position"), s).
Proof.
  intros H. unfold fetch_pos, n_get_position. apply bind_raise.
  unfold invoke. rewrite H. reflexivity.
Qed.

(** C9.  [nice_funcs.py] binds none of [get_position], [token_price],
    [chunk_kill] and [elegant_entry].  So in each trading mode (0 to
    close, 1 to buy, 5 to make a market) the first call [bot] makes into
    the module, [n.get_position(symbol)], raises [AttributeError]: the
    invocation ends there, with only its banner lines printed and no
    helper reached. *)
Theorem helpers_undefined (fuel : nat) (s : state W) :
  let missing := AttributeError "nice_funcs" "get_position" in
  let closed := emit (Print "bot successfully closed position..." []) s in
  (binds nice_funcs_names "get_position" = false /\
   binds nice_funcs_names "token_price" = false /\
   binds nice_funcs_names "chunk_kill" = false /\
   binds nice_funcs_names "elegant_entry" = false) /\
  bot cfg (nice_funcs remote) 0 (S fuel) s
    = (Raise missing, emit (Print "closing position" []) s) /\
  bot cfg (nice_funcs remote) 1 (S fuel) s
    = (Raise missing, emit (Print "opening buying position" []) closed) /\
  bot cfg (nice_funcs remote) 5 (S fuel) s
    = (Raise missing, mm_announced cfg closed).
Proof.
  intros missing closed.
  assert (Hm : binds (names (nice_funcs remote)) "get_position" = false)
    by reflexivity.
  split; [repeat split; reflexivity|]. split; [|split].
  - apply bot_close_raise. apply fetch_pos_missing, Hm.
  - apply bot_buy_raise. apply refresh_raise, fetch_raise_pos.
    apply fetch_pos_missing, Hm.
  - apply bot_mm_raise. apply refresh_raise, fetch_raise_pos.
    apply fetch_pos_missing, Hm.
Qed.

End Missing.

(** ** token_overview *)

Lemma min_trades_unbound :
  load_global nice_funcs_names "MIN_TRADES_LAST_HOUR"
  = inl (NameError "MIN_TRADES_LAST_HOUR").
Proof. reflexivity. Qed.

Section Overview.

Variable obj : Type.
Variable py : python obj.
Variable overview_rest :
  obj -> obj -> result_dict obj -> exn + option (result_dict obj).

Lemma token_overview_200 (resp : response obj) :
  status_code resp = 200 ->
  token_overview py overview_rest resp
  = match overview_head py resp with
    | inl e => inl e
    | inr _ => inl (NameError "MIN_TRADES_LAST_HOUR")
    end.
Proof.
  intros H. unfold token_overview, overview_head. rewrite H. simpl.
  destruct (json resp) as [e|body]; simpl; [reflexivity|].
  destruct (py_get py body "data" _) as [e|data]; simpl; [reflexivity|].
  destruct (py_get py data "buy1h" _) as [e|buy1h]; simpl; [reflexivity|].
  destruct (py_get py data "sell1h" _) as [e|sell1h]; simpl; [reflexivity|].
  destruct (py_add py buy1h sell1h) as [e|trade1h]; simpl; [reflexivity|].
  destruct (percentage py buy1h trade1h) as [e|bp]; simpl; [reflexivity|].
  destruct (percentage py sell1h trade1h) as [e|sp]; simpl; reflexivity.
Qed.

(** C10, as the code has it.  On a response of status 200,
    [token_overview] raises before it returns: [NameError] for
    [MIN_TRADES_LAST_HOUR], which the module does not bind ([config.py]
    binds [minimum_trades_in_last_hour]), whenever lines 57-74 go through,
    and otherwise the exception those lines raise.  So it returns a result
    dictionary for no response, and it returns [None] exactly when the
    status is not 200. *)
Theorem token_overview_never_returns_dict (resp : response obj) :
  (binds nice_funcs_names "MIN_TRADES_LAST_HOUR" = false /\
   binds nice_funcs_names "minimum_trades_in_last_hour" = true) /\
  (status_code resp = 200 ->
     (exists e, token_overview py overview_rest resp = inl e) /\
     (forall head, overview_head py resp = inr head ->
        token_overview py overview_rest resp
        = inl (NameError "MIN_TRADES_LAST_HOUR"))) /\
  (forall result, token_overview py overview_rest resp <> inr (Some result)) /\
  (token_overview py overview_rest resp = inr None <->
   status_code resp <> 200).
Proof.
  split; [split; reflexivity|].
  assert (H200 : status_code resp = 200 ->
                 exists e, token_overview py overview_rest resp = inl e).
  { intros H. rewrite (token_overview_200 resp H).
    destruct (overview_head py resp) as [e|v]; eexists; reflexivity. }
  assert (Hnot : status_code resp <> 200 ->
                 token_overview py overview_rest resp = inr None).
  { intros H. unfold token_overview.
    destruct (Z.eqb_spec (status_code resp) 200); [contradiction|reflexivity]. }
  split; [|split; [|split]].
  - intros H. split; [exact (H200 H)|].
    intros head Hh. rewrite (token_overview_200 resp H), Hh. reflexivity.
  - intros result Hr.
    destruct (Z.eq_dec (status_code resp) 200) as [H|H].
    + destruct (H200 H) as [e He]. congruence.
    + rewrite (Hnot H) in Hr. discriminate.
  - intros Hr H. destruct (H200 H) as [e He]. congruence.
  - exact Hnot.
Qed.

End Overview.

Lemma token_overview_never_returns_dict_witness :
  let resp := ok_response
    (JDict [("data", JDict [("buy1h", JInt 3); ("sell1h", JInt 1)])]) in
  (exists e, token_overview cpython hand_back resp = inl e) /\
  token_overview cpython hand_back resp
  = inl (NameError "MIN_TRADES_LAST_HOUR").
Proof.
  intros resp.
  destruct (proj1 (proj2 (token_overview_never_returns_dict
                            json_value cpython hand_back resp)) eq_refl)
    as [H1 H2].
  split; [exact H1|].
  apply (H2 (JInt 4, JFloat 75, JFloat 25)). vm_compute. reflexivity.
Defined.

(** C10 as the specification words it, on two answers of status 200: a
    body that is not
    JSON, and a body whose [data] is null.  Neither call raises
    [NameError]: the first raises the decoding error, the second the
    [AttributeError] of [None.get]. *)
Lemma status_200_other_exception :
  ~ (forall resp : response json_value,
       status_code resp = 200 ->
       token_overview cpython hand_back resp
       = inl (NameError "MIN_TRADES_LAST_HOUR")) /\
  token_overview cpython hand_back html_response = inl JSONDecodeError /\
  token_overview cpython hand_back (ok_response (JDict [("data", JNone)]))
  = inl (AttributeError "NoneType" "get").
Proof.
  split; [|split; reflexivity].
  intros H. specialize (H html_response eq_refl). discriminate H.
Qed.

(** ** The script as it stands *)

(** With [nice_funcs.py] as it is, the first, unguarded call [bot()] of
    line 195 raises in every trading mode, before any job is scheduled:
    the script ends there. *)
Remark script_stops_at_first_call (W : Type) (cfg : config)
    (remote : helpers W) (buy : Z) (fuel : nat) (s : state W) :
  buy = 0 \/ buy = 1 \/ buy = 5 ->
  fst (main cfg (nice_funcs remote) buy (S fuel) s)
  = Raise (AttributeError "nice_funcs" "get_position").
Proof.
  intros Hmode. unfold main.
  assert (Hm : binds (names (nice_funcs remote)) "get_position" = false)
    by reflexivity.
  destruct Hmode as [-> | [-> | ->]].
  - rewrite (bind_raise _ _ _ _ _ _ _
               (bot_close_raise cfg _ fuel s _ _
                  (fetch_pos_missing cfg _ _ Hm))).
    reflexivity.
  - rewrite (bind_raise _ _ _ _ _ _ _
               (bot_buy_raise cfg _ fuel s _ _
                  (refresh_raise cfg _ _ _ _
                     (fetch_raise_pos cfg _ _ _ _
                        (fetch_pos_missing cfg _ _ Hm))))).
    reflexivity.
  - rewrite (bind_raise _ _ _ _ _ _ _
               (bot_mm_raise cfg _ fuel s _ _
                  (refresh_raise cfg _ _ _ _
                     (fetch_raise_pos cfg _ _ _ _
                        (fetch_pos_missing cfg _ _ Hm))))).
    reflexivity.
Qed.

(** * Further properties of the code *)

(** ** Which orders a mode submits *)

Section Kinds.

Context {W : Type}.
Variable cfg : config.
Variable n : pymodule W.
Variable buy : Z.

Lemma keeps_while_never (Inv : state W -> Prop) (fuel : nat)
    (c : state W -> bool) (body : M W unit) :
  (forall s, c s = false) -> keeps Inv (while fuel c body).
Proof.
  intros Hc s Hs. destruct fuel; simpl; [exact Hs|]. rewrite Hc. exact Hs.
Qed.

Lemma kinds_emit (ev : event) (s : state W) :
  order_of_mode buy ev -> log_of_mode buy s -> log_of_mode buy (emit ev s).
Proof.
  intros Hev Hs. unfold log_of_mode, emit; simpl.
  apply Forall_app. split; [exact Hs | constructor; [exact Hev | constructor]].
Qed.

Lemma kinds_print text args : keeps (log_of_mode buy) (print (W := W) text args).
Proof. intros s Hs. apply kinds_emit; [exact I | exact Hs]. Qed.

Lemma kinds_sleep secs : keeps (log_of_mode buy) (sleep (W := W) secs).
Proof.
  intros s Hs. unfold sleep. destruct (secs <? 0); [exact Hs|].
  apply kinds_emit; [exact I | exact Hs].
Qed.

Lemma kinds_assign f : keeps (log_of_mode buy) (assign (W := W) f).
Proof. intros s Hs. exact Hs. Qed.

Lemma kinds_invoke A (name : string) (f : call A) (ev : exn + A -> event) :
  (forall r, order_of_mode buy (ev r)) ->
  keeps (log_of_mode buy) (invoke n name f ev).
Proof.
  intros Hev s Hs. unfold invoke. destruct (binds (names n) name); [|exact Hs].
  destruct (f (world s)) as [r w].
  assert (G : Forall (order_of_mode buy) (log s ++ [ev r])).
  { apply Forall_app. split; [exact Hs | constructor; [apply Hev | constructor]]. }
  destruct r; exact G.
Qed.

Ltac keep_kinds :=
  repeat first
    [ apply keeps_bind; [|intros ?]
    | apply keeps_try | apply keeps_when | apply keeps_while
    | apply keeps_while_else | apply keeps_for_range
    | apply keeps_ret | apply keeps_break | apply keeps_read
    | apply keeps_lift | apply kinds_print | apply kinds_sleep
    | apply kinds_assign
    | apply kinds_invoke; intros ?; simpl; solve [exact I | auto] ].

Lemma refresh_kinds : keeps (log_of_mode buy) (refresh cfg n).
Proof.
  unfold refresh, fetch, fetch_pos, size_chunk, n_get_position,
    n_token_price, set_pos, set_price, set_pos_usd, set_size_needed,
    set_chunk_size.
  keep_kinds.
Qed.

Lemma close_body_kinds (fuel : nat) :
  buy = 0 -> keeps (log_of_mode buy) (close_body cfg n fuel).
Proof.
  intros Hb.
  unfold close_body, kill_round, fetch_pos, n_chunk_kill, n_get_position,
    set_pos.
  keep_kinds.
Qed.

Lemma attempt_kinds : buy = 1 -> keeps (log_of_mode buy) (attempt cfg n).
Proof.
  intros Hb. unfold attempt, submit_replicas, n_market_buy.
  apply keeps_bind; [keep_kinds | intros _].
  apply keeps_bind; [apply kinds_sleep | intros _].
  apply refresh_kinds.
Qed.

Lemma open_body_kinds (fuel : nat) :
  buy = 1 -> keeps (log_of_mode buy) (open_body cfg n fuel).
Proof.
  intros Hb. unfold open_body, buy_loop, report_filled.
  apply keeps_bind; [apply kinds_print | intros _].
  apply keeps_bind; [apply refresh_kinds | intros _].
  apply keeps_bind; [keep_kinds | intros _].
  apply keeps_bind; [apply keeps_while | intros _; keep_kinds].
  unfold buy_round, buy_step, retry, give_up_buy.
  do 3 (apply keeps_bind; [apply keeps_read | intros ?]).
  apply keeps_bind; [apply kinds_print | intros _].
  apply keeps_bind.
  - apply keeps_try; [apply attempt_kinds, Hb|].
    apply keeps_try; [|keep_kinds].
    apply keeps_bind; [apply kinds_print | intros _].
    apply keeps_bind; [apply kinds_sleep | intros _].
    apply attempt_kinds, Hb.
  - intros _. apply keeps_bind; [apply kinds_sleep | intros _].
    apply refresh_kinds.
Qed.

Lemma mm_body_kinds : buy = 5 -> keeps (log_of_mode buy) (mm_body cfg n).
Proof.
  intros Hb. unfold mm_body.
  apply keeps_bind; [apply kinds_print | intros _].
  apply keeps_bind; [apply refresh_kinds | intros _].
  intros s Hs. unfold mm_decide.
  destruct (fgt (price (vars s)) (sell_over cfg)).
  - revert s Hs. unfold mm_sell, n_chunk_kill. keep_kinds.
  - destruct (flt (price (vars s)) (buy_under cfg)
              && flt (pos_usd (vars s)) (usd_size cfg)).
    + revert s Hs. unfold mm_buy, n_elegant_entry.
      apply keeps_bind; [apply kinds_sleep | intros _].
      apply keeps_bind; [apply refresh_kinds | intros _].
      keep_kinds.
    + revert s Hs. unfold mm_idle. keep_kinds.
Qed.

(** X1.  Each mode submits only its own kind of order, whatever the
    helpers do and however long it runs: [market_buy] is called in mode 1
    only, [elegant_entry] in mode 5 only, [chunk_kill] in modes 0 and 5
    only; in every other mode [bot] submits no order at all. *)
Theorem bot_orders_by_mode (fuel : nat) (s : state W) :
  Forall (order_of_mode buy) (log s) ->
  Forall (order_of_mode buy) (log (snd (bot cfg n buy fuel s))).
Proof.
  revert s. change (keeps (log_of_mode buy) (bot cfg n buy fuel)).
  unfold bot.
  apply keeps_bind; [|intros _].
  { destruct (Z.eqb_spec buy 0) as [E|E].
    - apply keeps_while, close_body_kinds, E.
    - apply keeps_while_never. reflexivity. }
  apply keeps_bind; [apply kinds_print | intros _].
  apply keeps_bind; [|intros _].
  { destruct (Z.eqb_spec buy 1) as [E|E].
    - apply keeps_while, open_body_kinds, E.
    - apply keeps_while_never. reflexivity. }
  apply keeps_bind; [apply keeps_while, kinds_print | intros _].
  apply keeps_bind; [|intros _].
  { destruct (Z.eqb_spec buy 5) as [E|E].
    - apply keeps_while, mm_body_kinds, E.
    - apply keeps_while_never. reflexivity. }
  apply keeps_bind; [apply keeps_while, kinds_print | intros _].
  apply keeps_while_else; apply kinds_print.
Qed.

End Kinds.

Lemma bot_orders_by_mode_witness :
  Forall (order_of_mode 5)
    (log (snd (bot config_py (test_module 0.05 never) 5 2 (start 0)))).
Proof.
  apply (bot_orders_by_mode config_py (test_module 0.05 never) 5 2 (start 0)).
  simpl. constructor.
Defined.

(** ** The modes that trade nothing *)

Section Idle.

Context {W : Type}.
Variable cfg : config.
Variable n : pymodule W.

Lemma logged_nil (s : state W) : logged [] s = s.
Proof. destruct s. unfold logged; simpl. rewrite app_nil_r. reflexivity. Qed.

Lemma logged_emit (ev : event) (evs : list event) (s : state W) :
  logged evs (emit ev s) = logged (ev :: evs) s.
Proof. unfold logged, emit; simpl. rewrite <- app_assoc. reflexivity. Qed.

Lemma repeat_snoc A (x : A) (k : nat) : x :: repeat x k = repeat x k ++ [x].
Proof. induction k as [|k IH]; simpl; [reflexivity | rewrite <- IH; reflexivity]. Qed.

(** A loop that only prints, and whose test never fails, is still running
    after any number of passes. *)
Lemma while_spins (k : nat) (text : string) (s : state W) :
  while k (fun _ => true) (print text []) s
  = (Timeout, logged (repeat (Print text []) k) s).
Proof.
  revert s. induction k as [|k IH]; intros s; simpl.
  - rewrite logged_nil. reflexivity.
  - rewrite IH, logged_emit. reflexivity.
Qed.

Lemma while_else_spins (k : nat) (text : string) (orelse : M W unit)
    (s : state W) :
  while_else k (fun _ => true) (print text []) orelse s
  = (Timeout, logged (repeat (Print text []) k) s).
Proof.
  revert s. induction k as [|k IH]; intros s; simpl.
  - rewrite logged_nil. reflexivity.
  - rewrite IH, logged_emit. reflexivity.
Qed.

(** X2.  Modes 4, 6 and 7 are busy loops: however many passes they are
    granted, [bot] has not returned; it has called no helper, slept not
    one second and submitted nothing, and has only printed the mode's line
    once per pass.  In mode 7 the [else] branch of the loop, with its
    closing line, is never reached. *)
Theorem busy_modes_never_return (buy : Z) (fuel : nat) (s : state W) :
  buy = 4 \/ buy = 6 \/ buy = 7 ->
  fst (bot cfg n buy fuel s) = Timeout /\
  bot cfg n buy (S fuel) s
  = (Timeout,
     logged (Print "bot successfully closed position..." []
             :: repeat (Print (busy_line buy) []) (S fuel)) s).
Proof.
  intros Hmode.
  assert (G : forall k, bot cfg n buy (S k) s
    = (Timeout,
       logged (Print "bot successfully closed position..." []
               :: repeat (Print (busy_line buy) []) (S k)) s)).
  { intros k. unfold bot.
    destruct Hmode as [-> | [-> | ->]].
    - rewrite (bind_ok _ _ _ _ _ _ tt (while_done _ _ _ _ eq_refl)).
      rewrite bind_print.
      rewrite (bind_ok _ _ _ _ _ _ tt (while_done _ _ _ _ eq_refl)).
      unfold bind at 1.
      change (fun _ : state W => 4 =? 4) with (fun _ : state W => true).
      rewrite while_spins, logged_emit. reflexivity.
    - rewrite (bind_ok _ _ _ _ _ _ tt (while_done _ _ _ _ eq_refl)).
      rewrite bind_print.
      do 3 rewrite (bind_ok _ _ _ _ _ _ tt (while_done _ _ _ _ eq_refl)).
      unfold bind at 1.
      change (fun _ : state W => 6 =? 6) with (fun _ : state W => true).
      rewrite while_spins, logged_emit. reflexivity.
    - rewrite (bind_ok _ _ _ _ _ _ tt (while_done _ _ _ _ eq_refl)).
      rewrite bind_print.
      do 4 rewrite (bind_ok _ _ _ _ _ _ tt (while_done _ _ _ _ eq_refl)).
      change (fun _ : state W => 7 =? 7) with (fun _ : state W => true).
      rewrite while_else_spins, logged_emit. reflexivity. }
  split; [|apply G].
  destruct fuel as [|k]; [reflexivity|]. rewrite G. reflexivity.
Qed.

(** X3.  Any other mode number (not 0, 1, 4, 5, 6 or 7) makes [bot]
    return at once: no helper is called, nothing is slept or submitted,
    and the two lines it prints are the closing notice of mode 0 and the
    final line. *)
Theorem unknown_mode_returns_at_once (buy : Z) (fuel : nat) (s : state W) :
  buy <> 0 -> buy <> 1 -> buy <> 4 -> buy <> 5 -> buy <> 6 -> buy <> 7 ->
  bot cfg n buy (S fuel) s
  = (Ok tt,
     logged [Print "bot successfully closed position..." [];
             Print "COMPLETE THANKS MOON DEV!" []] s).
Proof.
  intros H0 H1 H4 H5 H6 H7.
  apply Z.eqb_neq in H0, H1, H4, H5, H6, H7.
  unfold bot.
  rewrite (bind_ok _ _ _ _ _ _ tt (while_done _ _ _ _ H0)).
  rewrite bind_print.
  rewrite (bind_ok _ _ _ _ _ _ tt (while_done _ _ _ _ H1)).
  rewrite (bind_ok _ _ _ _ _ _ tt (while_done _ _ _ _ H4)).
  rewrite (bind_ok _ _ _ _ _ _ tt (while_done _ _ _ _ H5)).
  rewrite (bind_ok _ _ _ _ _ _ tt (while_done _ _ _ _ H6)).
  rewrite (while_else_done _ _ _ _ _ H7).
  unfold print. rewrite <- logged_emit. reflexivity.
Qed.

End Idle.

Lemma busy_modes_never_return_witness :
  fst (bot config_py (test_module 1 never) 4 7 (start 0)) = Timeout /\
  bot config_py (test_module 1 never) 4 3 (start 0)
  = (Timeout,
     logged (Print "bot successfully closed position..." []
             :: repeat (Print (busy_line 4) []) 3) (start 0)).
Proof.
  split.
  - exact (proj1 (busy_modes_never_return config_py (test_module 1 never)
                    4 7 (start 0) (or_introl eq_refl))).
  - exact (proj2 (busy_modes_never_return config_py (test_module 1 never)
                    4 2 (start 0) (or_introl eq_refl))).
Defined.

Lemma unknown_mode_returns_at_once_witness :
  bot config_py (test_module 1 never) 2 1 (start 0)
  = (Ok tt,
     logged [Print "bot successfully closed position..." [];
             Print "COMPLETE THANKS MOON DEV!" []] (start 0)).
Proof.
  apply (unknown_mode_returns_at_once config_py (test_module 1 never) 2 0
           (start 0)); discriminate.
Defined.

(** ** Reading an outcome backwards *)

Section Backwards.

Context {W : Type}.

Lemma bind_break_inv A B (m : M W A) (k : A -> M W B) (s s' : state W) :
  bind m k s = (Break, s') ->
  m s = (Break, s') \/ exists a s1, m s = (Ok a, s1) /\ k a s1 = (Break, s').
Proof.
  unfold bind. destruct (m s) as [[a| |e|] s1]; intros H;
    try discriminate; [right; eauto | left; inversion H; reflexivity].
Qed.

Lemma bind_ok_inv A B (m : M W A) (k : A -> M W B) (s s' : state W) (b : B) :
  bind m k s = (Ok b, s') ->
  exists a s1, m s = (Ok a, s1) /\ k a s1 = (Ok b, s').
Proof.
  unfold bind. destruct (m s) as [[a| |e|] s1]; intros H;
    try discriminate; eauto.
Qed.

Lemma when_break_inv (c : state W -> bool) (m : M W unit) (s s' : state W) :
  when c m s = (Break, s') -> c s = true /\ m s = (Break, s').
Proof.
  unfold when. destruct (c s); [auto | discriminate].
Qed.

(** A loop ends normally either because its test fails or because its
    body breaks. *)
Lemma while_ok_inv (fuel : nat) (c : state W -> bool) (body : M W unit)
    (s s' : state W) :
  while fuel c body s = (Ok tt, s') ->
  c s' = false \/ exists s0, c s0 = true /\ body s0 = (Break, s').
Proof.
  revert s. induction fuel as [|fuel IH]; intros s; simpl; [discriminate|].
  destruct (c s) eqn:Hc.
  - destruct (body s) as [[[]| |e|] s1] eqn:Hb; try discriminate.
    + apply IH.
    + intros H. inversion H; subst. right. eauto.
  - intros H. inversion H; subst. left. exact Hc.
Qed.

Lemma invoke_unbroken A (n : pymodule W) (name : string) (f : call A)
    (ev : exn + A -> event) (s : state W) :
  fst (invoke n name f ev s) <> Break.
Proof.
  unfold invoke. destruct (binds (names n) name); [|discriminate].
  destruct (f (world s)) as [[e|a] w]; discriminate.
Qed.

Lemma sleep_unbroken (secs : Z) (s : state W) : fst (sleep secs s) <> Break.
Proof. unfold sleep. destruct (secs <? 0); discriminate. Qed.

Lemma for_range_unbroken (k : nat) (body : M W unit) (s : state W) :
  (forall s', fst (body s') <> Break) -> fst (for_range k body s) <> Break.
Proof.
  intros Hb. revert s. induction k as [|k IH]; intros s; simpl; [discriminate|].
  apply bind_unbroken; [apply Hb | intros _; apply IH].
Qed.

End Backwards.

(** ** Closing a position *)

Section Close.

Context {W : Type}.
Variable cfg : config.
Variable n : pymodule W.

Lemma fetch_pos_unbroken (s : state W) : fst (fetch_pos cfg n s) <> Break.
Proof.
  unfold fetch_pos, n_get_position.
  apply bind_unbroken; [apply invoke_unbroken | discriminate].
Qed.

Lemma fetch_pos_ok (s s1 : state W) :
  fetch_pos cfg n s = (Ok tt, s1) ->
  log s1 = log s ++ [GetPosition (symbol cfg) (inr (pos (vars s1)))] /\
  get_position (impl n) (symbol cfg) (world s)
  = (inr (pos (vars s1)), world s1).
Proof.
  unfold fetch_pos, n_get_position. intros H.
  apply bind_ok_inv in H. destruct H as (p & sa & Ha & Hb).
  apply invoke_ok in Ha. destruct Ha as (_ & Hf & _ & Hl & _).
  unfold set_pos, assign in Hb. inversion Hb; subst; clear Hb. simpl.
  split; assumption.
Qed.

(** The one way out of the closing round. *)
Lemma close_body_break (fuel : nat) (s0 s1 : state W) :
  close_body cfg n fuel s0 = (Break, s1) ->
  flt (pos (vars s1)) 0.9 = true /\
  exists l,
    log s1 = l ++ [Sleep 15;
                   GetPosition (symbol cfg) (inr (pos (vars s1)));
                   Print "position closed thanks moon dev...." [];
                   Sleep 876786].
Proof.
  unfold close_body. rewrite bind_print. intros H.
  apply bind_break_inv in H. destruct H as [H | (? & sa & _ & H)].
  { exfalso. eapply fetch_pos_unbroken. rewrite H. reflexivity. }
  apply bind_break_inv in H. destruct H as [H | (? & sb & _ & H)].
  { exfalso. eapply while_unbroken. rewrite H. reflexivity. }
  apply when_break_inv in H. destruct H as [_ H].
  rewrite bind_sleep in H by lia.
  apply bind_break_inv in H. destruct H as [H | ([] & sc & Hc & H)].
  { exfalso. eapply fetch_pos_unbroken. rewrite H. reflexivity. }
  apply when_break_inv in H. destruct H as [Hlt H].
  apply fetch_pos_ok in Hc. destruct Hc as [Hl _].
  inversion H; subst; clear H. simpl. split; [exact Hlt|].
  exists (log sb). rewrite Hl. simpl. rewrite <- !app_assoc. reflexivity.
Qed.

(** X4.  Mode 0 returns only one way: after a 15-second wait a fresh
    position read came back below 0.9, the closing line was printed and
    876786 seconds were slept.  Nothing else ends it normally: not a
    count of the orders sent, and not a position that merely stopped
    being positive. *)
Theorem close_returns_only_when_flat (fuel : nat) (s s' : state W) :
  bot cfg n 0 fuel s = (Ok tt, s') ->
  flt (pos (vars s')) 0.9 = true /\
  exists l,
    log s' = l ++ [Sleep 15;
                   GetPosition (symbol cfg) (inr (pos (vars s')));
                   Print "position closed thanks moon dev...." [];
                   Sleep 876786;
                   Print "bot successfully closed position..." [];
                   Print "COMPLETE THANKS MOON DEV!" []].
Proof.
  destruct fuel as [|k]; [discriminate|].
  unfold bot. intros H.
  apply bind_ok_inv in H. destruct H as ([] & s1 & Hw & H).
  rewrite bind_print in H.
  do 4 rewrite (bind_ok _ _ _ _ _ _ tt (while_done _ _ _ _ eq_refl)) in H.
  rewrite (while_else_done _ _ _ _ _ eq_refl) in H.
  inversion H; subst; clear H.
  apply while_ok_inv in Hw. destruct Hw as [Hw | (s0 & _ & Hb)];
    [discriminate|].
  apply close_body_break in Hb. destruct Hb as (Hlt & l & Hl).
  simpl. split; [exact Hlt|].
  exists l. rewrite Hl. rewrite <- !app_assoc. reflexivity.
Qed.

End Close.

Lemma close_returns_only_when_flat_witness :
  let s' := snd (bot config_py (test_module 1 never) 0 5 (start 2.5)) in
  flt (pos (vars s')) 0.9 = true /\
  exists l,
    log s' = l ++ [Sleep 15;
                   GetPosition (symbol config_py) (inr (pos (vars s')));
                   Print "position closed thanks moon dev...." [];
                   Sleep 876786;
                   Print "bot successfully closed position..." [];
                   Print "COMPLETE THANKS MOON DEV!" []].
Proof.
  intros s'.
  apply (close_returns_only_when_flat config_py (test_module 1 never) 5
           (start 2.5) s').
  vm_compute. reflexivity.
Defined.

Section CloseFlat.

Context {W : Type}.
Variable cfg : config.
Variable n : pymodule W.

(** A position read that returns binds [pos] and logs itself. *)
Lemma fetch_pos_run (s : state W) (p : float) (w : W) :
  binds (names n) "get_position" = true ->
  get_position (impl n) (symbol cfg) (world s) = (inr p, w) ->
  exists s1,
    fetch_pos cfg n s = (Ok tt, s1) /\
    world s1 = w /\ pos (vars s1) = p /\
    log s1 = log s ++ [GetPosition (symbol cfg) (inr p)].
Proof.
  intros Hb Hf. eexists. split.
  - unfold fetch_pos, n_get_position, bind, invoke. rewrite Hb, Hf.
    reflexivity.
  - simpl. auto.
Qed.

(** X5.  Mode 0 on a position that is not positive sells nothing: when
    the first read is not above 0 and is below 0.9, [bot] waits 15
    seconds, reads again, and, the second read being below 0.9 too,
    reports the position closed, sleeps 876786 seconds and returns,
    without a single [chunk_kill]. *)
Theorem close_nothing_held (fuel : nat) (s : state W) (p q : float)
    (w1 w2 : W) :
  binds (names n) "get_position" = true ->
  get_position (impl n) (symbol cfg) (world s) = (inr p, w1) ->
  fgt p 0 = false -> flt p 0.9 = true ->
  get_position (impl n) (symbol cfg) w1 = (inr q, w2) ->
  flt q 0.9 = true ->
  exists s',
    bot cfg n 0 (S fuel) s = (Ok tt, s') /\
    log s' = log s ++
      [Print "closing position" [];
       GetPosition (symbol cfg) (inr p);
       Sleep 15;
       GetPosition (symbol cfg) (inr q);
       Print "position closed thanks moon dev...." [];
       Sleep 876786;
       Print "bot successfully closed position..." [];
       Print "COMPLETE THANKS MOON DEV!" []] /\
    orders (log s') = orders (log s) /\
    world s' = w2.
Proof.
  intros Hb Hp Hp0 Hp9 Hq Hq9.
  destruct (fetch_pos_run (emit (Print "closing position" []) s) p w1 Hb Hp)
    as (sa & Ha & Hwa & Hpa & Hla).
  assert (Hq' : get_position (impl n) (symbol cfg)
                  (world (emit (Sleep 15) sa)) = (inr q, w2))
    by (simpl; rewrite Hwa; exact Hq).
  destruct (fetch_pos_run (emit (Sleep 15) sa) q w2 Hb Hq')
    as (sb & Hsb & Hwb & Hpb & Hlb).
  assert (Hw : while (S fuel) (fun s0 : state W => fgt (pos (vars s0)) 0)
                 (kill_round cfg n) sa = (Ok tt, sa)).
  { apply while_done. rewrite Hpa. exact Hp0. }
  assert (Hbody : close_body cfg n (S fuel) s
                  = (Break,
                     emit (Sleep 876786)
                       (emit (Print "position closed thanks moon dev...." [])
                          sb))).
  { unfold close_body. rewrite bind_print.
    rewrite (bind_ok _ _ _ _ _ _ tt Ha).
    rewrite (bind_ok _ _ _ _ _ _ tt Hw).
    unfold when at 1. rewrite Hpa, Hp9.
    rewrite bind_sleep by lia.
    rewrite (bind_ok _ _ _ _ _ _ tt Hsb).
    unfold when. rewrite Hpb, Hq9. reflexivity. }
  eexists. split; [|split; [|split]].
  - unfold bot.
    rewrite (bind_ok _ _ _ _ _ _ tt (while_break _ _ _ _ _ eq_refl Hbody)).
    rewrite bind_print.
    do 4 rewrite (bind_ok _ _ _ _ _ _ tt (while_done _ _ _ _ eq_refl)).
    rewrite (while_else_done _ _ _ _ _ eq_refl). reflexivity.
  - simpl. rewrite Hlb. simpl. rewrite Hla. simpl.
    rewrite <- !app_assoc. reflexivity.
  - simpl. rewrite Hlb. simpl. rewrite Hla. simpl.
    rewrite !orders_app. simpl. rewrite !app_nil_r. reflexivity.
  - simpl. exact Hwb.
Qed.

End CloseFlat.

Lemma close_nothing_held_witness :
  exists s',
    bot config_py (test_module 1 never) 0 1 (start 0) = (Ok tt, s') /\
    log s' = [] ++
      [Print "closing position" [];
       GetPosition (symbol config_py) (inr 0%float);
       Sleep 15;
       GetPosition (symbol config_py) (inr 0%float);
       Print "position closed thanks moon dev...." [];
       Sleep 876786;
       Print "bot successfully closed position..." [];
       Print "COMPLETE THANKS MOON DEV!" []] /\
    orders (log s') = [] /\
    world s' = {| held := 0; calls := 2 |}.
Proof.
  apply (close_nothing_held config_py (test_module 1 never) 0 (start 0)
           0%float 0%float {| held := 0; calls := 1 |});
    vm_compute; reflexivity.
Defined.

(** ** How the buy loop ends *)

Section BuyLoop.

Context {W : Type}.
Variable cfg : config.
Variable n : pymodule W.

Lemma try_break_inv A (m h : M W A) (s s' : state W) :
  try_except m h s = (Break, s') ->
  m s = (Break, s') \/ exists e s1, m s = (Raise e, s1) /\ h s1 = (Break, s').
Proof.
  unfold try_except. destruct (m s) as [[a| |e|] s1]; intros H;
    try discriminate; [left; exact H | right; eauto].
Qed.

Lemma refresh_unbroken (s : state W) : fst (refresh cfg n s) <> Break.
Proof.
  unfold refresh. apply bind_unbroken.
  - unfold fetch. apply bind_unbroken; [apply fetch_pos_unbroken | intros _ s'].
    unfold n_token_price.
    apply bind_unbroken; [apply invoke_unbroken | discriminate].
  - intros _ s'. destruct (size_chunk cfg s') as [o s''] eqn:E.
    destruct (size_chunk_silent cfg s') as (_ & _ & H).
    apply (H o s'' E).
Qed.

Lemma attempt_unbroken (s : state W) : fst (attempt cfg n s) <> Break.
Proof.
  unfold attempt. apply bind_unbroken.
  - unfold submit_replicas. apply for_range_unbroken. intros s'.
    rewrite bind_read. unfold n_market_buy.
    apply bind_unbroken; [apply invoke_unbroken | intros _ s''].
    apply bind_unbroken; [discriminate | intros _ s3; apply sleep_unbroken].
  - intros _ s'.
    apply bind_unbroken; [apply sleep_unbroken | intros _ s''].
    apply refresh_unbroken.
Qed.

(** A buy round breaks out of the loop only through the inner [except]:
    after a failed attempt and a failed retry. *)
Lemma buy_round_break (s0 s' : state W) :
  buy_round cfg n s0 = (Break, s') ->
  exists e1 s1 e2 s2,
    attempt cfg n (announced cfg s0) = (Raise e1, s1) /\
    attempt cfg n (backed_off s1) = (Raise e2, s2) /\
    s' = stalled s2.
Proof.
  rewrite buy_round_step. intros H.
  apply bind_break_inv in H. destruct H as [H | ([] & sa & _ & H)].
  - unfold buy_step in H.
    apply try_break_inv in H. destruct H as [H | (e1 & s1 & H1 & H)].
    { exfalso. eapply attempt_unbroken. rewrite H. reflexivity. }
    apply try_break_inv in H. destruct H as [H | (e2 & s2 & H2 & H)].
    { exfalso. unfold retry in H. rewrite bind_print in H.
      rewrite bind_sleep in H by lia.
      eapply attempt_unbroken. rewrite H. reflexivity. }
    unfold retry in H2. rewrite bind_print in H2.
    rewrite bind_sleep in H2 by lia.
    exists e1, s1, e2, s2. repeat split; try assumption.
    inversion H; reflexivity.
  - exfalso. rewrite bind_sleep in H by lia.
    eapply refresh_unbroken. rewrite H. reflexivity.
Qed.

(** X6.  The buy loop ends normally in two ways only: the position value
    last measured is not below [.97 * usd_size], or a round's attempt and
    its one retry both raised and the final error was reported
    ([stalled]).  It never ends on a count of the orders submitted. *)
Theorem buy_loop_exits (fuel : nat) (s s' : state W) :
  buy_loop cfg n fuel s = (Ok tt, s') ->
  flt (pos_usd (vars s')) (filled_level cfg) = false \/
  exists s0 e1 s1 e2 s2,
    flt (pos_usd (vars s0)) (filled_level cfg) = true /\
    attempt cfg n (announced cfg s0) = (Raise e1, s1) /\
    attempt cfg n (backed_off s1) = (Raise e2, s2) /\
    s' = stalled s2.
Proof.
  unfold buy_loop. intros H.
  apply while_ok_inv in H. destruct H as [H | (s0 & Hc & Hb)];
    [left; exact H | right].
  apply buy_round_break in Hb.
  destruct Hb as (e1 & s1 & e2 & s2 & H1 & H2 & ->).
  exists s0, e1, s1, e2, s2. auto.
Qed.

End BuyLoop.

Lemma buy_loop_exits_witness :
  let m := test_module 1 never in
  let s' := snd (buy_loop config_py m 5 (snd (refresh config_py m (start 0)))) in
  flt (pos_usd (vars s')) (filled_level config_py) = false \/
  exists s0 e1 s1 e2 s2,
    flt (pos_usd (vars s0)) (filled_level config_py) = true /\
    attempt config_py m (announced config_py s0) = (Raise e1, s1) /\
    attempt config_py m (backed_off s1) = (Raise e2, s2) /\
    s' = stalled s2.
Proof.
  intros m s'.
  apply (buy_loop_exits config_py m 5 (snd (refresh config_py m (start 0))) s').
  vm_compute. reflexivity.
Defined.

Lemma replicas_per_round_witness :
  let m := test_module 1 never in
  let s := snd (refresh config_py m (start 0)) in
  buys (log (snd (submit_replicas config_py m s)))
  = buys (log s) ++
    repeat (MarketBuy (symbol config_py) (chunk_size (vars s))
              (slippage config_py) (inr tt))
           (orders_per_open config_py).
Proof.
  intros m s.
  apply (replicas_per_round config_py m s (snd (submit_replicas config_py m s))).
  vm_compute. reflexivity.
Defined.

(** ** The buy branch of the market maker *)

Section Entry.

Context {W : Type}.
Variable cfg : config.
Variable n : pymodule W.

Lemma mm_decide_buy (s : state W) :
  fgt (price (vars s)) (sell_over cfg) = false ->
  flt (price (vars s)) (buy_under cfg) = true ->
  flt (pos_usd (vars s)) (usd_size cfg) = true ->
  mm_decide cfg n s = mm_buy cfg n s.
Proof.
  intros H1 H2 H3. unfold mm_decide. rewrite H1, H2, H3. reflexivity.
Qed.

(** X7.  A market-maker round that finds the price below [buy_under]
    (and not above [sell_over]) with holdings below the target does not
    buy on that reading: it sleeps 10 seconds and reads again.  If the
    second reading no longer has both the holdings below [usd_size] and
    the price below [buy_under], the round ends with no order.  If it
    has, the round's one order is [elegant_entry(symbol, buy_under)]. *)
Theorem mm_buy_rechecks (s s1 s2 : state W) :
  refresh cfg n (mm_announced cfg s) = (Ok tt, s1) ->
  fgt (price (vars s1)) (sell_over cfg) = false ->
  flt (price (vars s1)) (buy_under cfg) = true ->
  flt (pos_usd (vars s1)) (usd_size cfg) = true ->
  refresh cfg n (emit (Sleep 10) s1) = (Ok tt, s2) ->
  (wants_buy cfg s2 = false ->
     mm_body cfg n s = (Ok tt, s2) /\ orders (log s2) = orders (log s)) /\
  (wants_buy cfg s2 = true ->
     binds (names n) "elegant_entry" = true ->
     let entry := elegant_entry (impl n) (symbol cfg) (buy_under cfg)
                    (world s2) in
     orders (log (snd (mm_body cfg n s)))
       = orders (log s) ++
         [ElegantEntry (symbol cfg) (buy_under cfg) (fst entry)] /\
     fst (mm_body cfg n s)
       = match fst entry with inl e => Raise e | inr _ => Ok tt end).
Proof.
  intros Hr Hs Hp Hv Hr2.
  destruct (refresh_ok cfg n _ _ Hr) as (Hl1 & _).
  destruct (refresh_ok cfg n _ _ Hr2) as (Hl2 & _).
  assert (Hbase : orders (log s2) = orders (log s)).
  { rewrite Hl2. simpl. rewrite Hl1. unfold mm_announced, emit; simpl.
    rewrite !orders_app. simpl. rewrite !app_nil_r. reflexivity. }
  assert (Hstep : mm_body cfg n s
                  = when (wants_buy cfg)
                      (bind (read price) (fun q =>
                       bind (print "buying {} bc price is {} and buy under is {}"
                               [VStr (last4 (symbol cfg)); VFloat q;
                                VFloat (buy_under cfg)]) (fun _ =>
                       bind (n_elegant_entry n (symbol cfg) (buy_under cfg))
                         (fun _ =>
                       bind (print "elegant entry complete..." []) (fun _ =>
                       sleep 15))))) s2).
  { rewrite mm_body_step, (bind_ok _ _ _ _ _ _ tt Hr).
    rewrite (mm_decide_buy _ Hs Hp Hv). unfold mm_buy.
    rewrite bind_sleep by lia. rewrite (bind_ok _ _ _ _ _ _ tt Hr2).
    reflexivity. }
  split.
  - intros Hw. rewrite Hstep. unfold when. rewrite Hw. auto.
  - intros Hw Hb entry. rewrite Hstep. unfold when. rewrite Hw.
    rewrite bind_read, bind_print.
    unfold n_elegant_entry, bind, invoke. simpl. rewrite Hb.
    fold entry. destruct entry as [[e|[]] w]; simpl;
      rewrite !orders_app; simpl; rewrite !app_nil_r, Hbase; auto.
Qed.

End Entry.

Lemma mm_buy_rechecks_witness :
  let m := test_module 0.05 never in
  orders (log (snd (mm_body config_py m (start 0))))
  = [] ++ [ElegantEntry (symbol config_py) (buy_under config_py) (inr tt)] /\
  fst (mm_body config_py m (start 0)) = Ok tt.
Proof.
  intros m.
  refine (proj2 (mm_buy_rechecks config_py m (start 0)
                   (snd (refresh config_py m (mm_announced config_py (start 0))))
                   (snd (refresh config_py m
                      (emit (Sleep 10)
                         (snd (refresh config_py m
                                 (mm_announced config_py (start 0)))))))
                   _ _ _ _ _) _ _);
    vm_compute; reflexivity.
Defined.

(** ** The cadence of the scheduler *)

Section Cadence.

Context {W : Type}.
Variable cfg : config.
Variable n : pymodule W.
Variable buy : Z.

Lemma now_logged (evs : list event) (s : state W) :
  now (logged evs s) = now s + elapsed evs.
Proof. unfold now, logged; simpl. apply elapsed_app. Qed.

Lemma elapsed_idle (k : nat) : elapsed (repeat (Sleep 3) k) = 3 * Z.of_nat k.
Proof.
  induction k as [|k IH]; [reflexivity|].
  change (elapsed (repeat (Sleep 3) (S k)))
    with (3 + elapsed (repeat (Sleep 3) k)).
  rewrite IH. lia.
Qed.

(** A pass while the job is not due only sleeps its 3 seconds. *)
Lemma tick_idle (fuel : nat) (s : state W) :
  now s < next_run s ->
  tick cfg n buy fuel s = (Ok tt, emit (Sleep 3) s).
Proof.
  intros H. unfold tick, try_except. unfold bind at 1. unfold run_pending.
  destruct (Z.leb_spec (next_run s) (now s)); [lia | reflexivity].
Qed.

(** A pass in which the due job returns sets the next run 30 seconds after
    the return, then sleeps. *)
Lemma tick_runs (fuel : nat) (s s1 : state W) :
  next_run s <= now s ->
  bot cfg n buy fuel s = (Ok tt, s1) ->
  tick cfg n buy fuel s = (Ok tt, emit (Sleep 3) (rescheduled 30 s1)).
Proof.
  intros Hdue Hrun. unfold tick, try_except. unfold bind at 1.
  unfold run_pending. apply Z.leb_le in Hdue. rewrite Hdue.
  rewrite (bind_ok _ _ _ _ _ _ tt Hrun). reflexivity.
Qed.

Lemma idle_passes (fuel k : nat) (s : state W) :
  now s + 3 * Z.of_nat k < next_run s + 3 ->
  while k (fun _ => true) (tick cfg n buy fuel) s
  = (Timeout, logged (repeat (Sleep 3) k) s).
Proof.
  revert s. induction k as [|k IH]; intros s H.
  - simpl. rewrite logged_nil. reflexivity.
  - simpl while. rewrite tick_idle by lia.
    rewrite IH.
    + simpl repeat. rewrite logged_emit. reflexivity.
    + assert (G : now (emit (Sleep 3) s) = now s + 3).
      { unfold now, emit; simpl. rewrite elapsed_app. simpl. lia. }
      rewrite G. change (next_run (emit (Sleep 3) s)) with (next_run s). lia.
Qed.

(** X8.  After a scheduled run of [bot] that returns, the job's next run
    is set 30 seconds after the return; the nine passes that follow, 3
    seconds each, do not invoke [bot]: they only sleep.  At the tenth
    pass, 30 seconds after the return, the job is due again. *)
Theorem scheduler_cadence (fuel : nat) (s s1 : state W) :
  next_run s <= now s ->
  bot cfg n buy fuel s = (Ok tt, s1) ->
  let s2 := emit (Sleep 3) (rescheduled 30 s1) in
  tick cfg n buy fuel s = (Ok tt, s2) /\
  next_run s2 = now s1 + 30 /\
  (forall k, (k <= 9)%nat ->
     while k (fun _ => true) (tick cfg n buy fuel) s2
     = (Timeout, logged (repeat (Sleep 3) k) s2) /\
     (next_run (logged (repeat (Sleep 3) k) s2)
        <= now (logged (repeat (Sleep 3) k) s2) <-> k = 9%nat)).
Proof.
  intros Hdue Hrun s2.
  assert (Hnow : now s2 = now s1 + 3).
  { unfold s2, now, emit, rescheduled; simpl. rewrite elapsed_app. simpl. lia. }
  assert (Hnext : next_run s2 = now s1 + 30) by reflexivity.
  split; [apply tick_runs; assumption|]. split; [exact Hnext|].
  intros k Hk. split.
  - apply idle_passes. rewrite Hnow, Hnext. lia.
  - rewrite now_logged, elapsed_idle, Hnow.
    change (next_run (logged (repeat (Sleep 3) k) s2)) with (next_run s2).
    rewrite Hnext. lia.
Qed.

End Cadence.

Lemma scheduler_cadence_witness :
  let m := test_module 1 never in
  let s1 := snd (bot config_py m 9 3 (start 0)) in
  let s2 := emit (Sleep 3) (rescheduled 30 s1) in
  tick config_py m 9 3 (start 0) = (Ok tt, s2) /\
  while 9 (fun _ => true) (tick config_py m 9 3) s2
  = (Timeout, logged (repeat (Sleep 3) 9) s2).
Proof.
  intros m s1 s2.
  destruct (scheduler_cadence config_py m 9 3 (start 0) s1) as (H1 & _ & H2).
  - vm_compute. discriminate.
  - vm_compute. reflexivity.
  - split; [exact H1|]. apply (H2 9%nat). apply le_n.
Defined.

(** ** The pace of a buy round *)

Section Pace.

Context {W : Type}.
Variable cfg : config.
Variable n : pymodule W.

(** Submissions that all go through: the replicas, a one-second sleep
    after each, and nothing else that counts. *)
Lemma submit_replicas_ok (s s' : state W) :
  submit_replicas cfg n s = (Ok tt, s') ->
  orders (log s')
  = orders (log s) ++
    repeat (MarketBuy (symbol cfg) (chunk_size (vars s)) (slippage cfg)
              (inr tt))
           (orders_per_open cfg) /\
  elapsed (log s') = elapsed (log s) + Z.of_nat (orders_per_open cfg).
Proof.
  unfold submit_replicas. generalize (orders_per_open cfg) as k.
  intros k. revert s.
  induction k as [|k IH]; intros s.
  - simpl. intros H. inversion H; subst. rewrite app_nil_r. split; [reflexivity | lia].
  - simpl for_range. rewrite bind_assoc, bind_read. cbv beta.
    unfold n_market_buy. rewrite bind_assoc. unfold bind at 1.
    destruct (invoke n "market_buy" _ _ s) as [[[]| |e|] s1] eqn:E;
      try discriminate.
    apply invoke_ok in E. destruct E as (_ & _ & Hv & Hl & _).
    cbv beta iota. rewrite bind_assoc, bind_print.
    rewrite bind_sleep by lia. intros H. apply IH in H.
    destruct H as [Ho He]. rewrite Ho, He. simpl vars. simpl log.
    rewrite Hv, Hl, !orders_app, !elapsed_app. simpl orders. simpl elapsed.
    rewrite !app_nil_r, <- app_assoc. simpl repeat.
    split; [reflexivity | lia].
Qed.

(** X9.  A buy round whose first attempt goes through, and whose closing
    read does too, submits exactly [orders_per_open] buys, all of the
    chunk sized before the round, and sleeps
    [orders_per_open + tx_sleep + 3] seconds: one after each replica,
    [tx_sleep] after the batch, 3 before the closing read. *)
Theorem buy_round_pace (s0 s1 s' : state W) :
  attempt cfg n (announced cfg s0) = (Ok tt, s1) ->
  buy_round cfg n s0 = (Ok tt, s') ->
  orders (log s')
  = orders (log s0) ++
    repeat (MarketBuy (symbol cfg) (chunk_size (vars s0)) (slippage cfg)
              (inr tt))
           (orders_per_open cfg) /\
  elapsed (log s')
  = elapsed (log s0) + Z.of_nat (orders_per_open cfg) + tx_sleep cfg + 3.
Proof.
  intros Ha Hr.
  rewrite buy_round_step in Hr. unfold buy_step in Hr.
  rewrite (bind_ok _ _ _ _ _ _ tt (try_ok _ _ _ _ _ tt Ha)) in Hr.
  rewrite bind_sleep in Hr by lia.
  apply refresh_ok in Hr. destruct Hr as (Hl' & _).
  unfold attempt in Ha.
  apply bind_ok_inv in Ha. destruct Ha as ([] & sa & Hsub & Ha).
  apply submit_replicas_ok in Hsub. destruct Hsub as [Ho He].
  apply bind_ok_inv in Ha. destruct Ha as ([] & sb & Hsl & Ha).
  apply refresh_ok in Ha. destruct Ha as (Hl1 & _).
  unfold sleep in Hsl. destruct (Z.ltb_spec (tx_sleep cfg) 0); [discriminate|].
  inversion Hsl; subst; clear Hsl.
  rewrite Hl'. simpl log. rewrite Hl1. simpl log.
  rewrite !orders_app, !elapsed_app, Ho, He. simpl.
  unfold announced, emit; simpl. rewrite !orders_app, !elapsed_app. simpl.
  rewrite !app_nil_r. split; [reflexivity | lia].
Qed.

End Pace.

Lemma buy_round_pace_witness :
  let m := test_module 1 never in
  let s0 := snd (refresh config_py m (start 0)) in
  let s' := snd (buy_round config_py m s0) in
  orders (log s')
  = orders (log s0) ++
    repeat (MarketBuy (symbol config_py) (chunk_size (vars s0))
              (slippage config_py) (inr tt))
           (orders_per_open config_py) /\
  elapsed (log s')
  = elapsed (log s0) + Z.of_nat (orders_per_open config_py)
    + tx_sleep config_py + 3.
Proof.
  intros m s0 s'.
  apply (buy_round_pace config_py m s0
           (snd (attempt config_py m (announced config_py s0))) s');
    vm_compute; reflexivity.
Defined.

(** ** find_urls *)

Lemma take_url_all (s : string) : all_chars url_char (take_url s) = true.
Proof.
  induction s as [|c s IH]; simpl; [reflexivity|].
  destruct (url_char c) eqn:E; simpl; [rewrite E; exact IH | reflexivity].
Qed.

Lemma take_url_id (s : string) :
  all_chars url_char s = true -> take_url s = s.
Proof.
  induction s as [|c s IH]; simpl; [reflexivity|].
  intros H. apply andb_true_iff in H. destruct H as [Hc Hs].
  rewrite Hc, (IH Hs). reflexivity.
Qed.

Lemma prefix_app_mono (p a b : string) :
  prefix a b = true -> prefix (p ++ a)%string (p ++ b)%string = true.
Proof.
  intros H. induction p as [|c p IH]; simpl; [exact H|].
  destruct (ascii_dec c c); [exact IH | congruence].
Qed.

Lemma take_url_prefix (s : string) : prefix (take_url s) s = true.
Proof.
  induction s as [|c s IH]; simpl; [reflexivity|].
  destruct (url_char c); simpl; [|reflexivity].
  destruct (ascii_dec c c); [exact IH | congruence].
Qed.

Lemma strip_app (p s rest : string) :
  strip p s = Some rest -> s = (p ++ rest)%string.
Proof.
  revert s. induction p as [|a p IH]; intros s; simpl.
  - intros H. inversion H. reflexivity.
  - destruct s as [|b s]; [discriminate|].
    destruct (Ascii.eqb_spec a b); [|discriminate].
    intros H. subst. simpl. f_equal. apply IH, H.
Qed.

Lemma url_after_inv (scheme rest u : string) :
  url_after scheme rest = Some u ->
  u = (scheme ++ take_url rest)%string /\ take_url rest <> EmptyString.
Proof.
  unfold url_after. destruct (take_url rest) as [|c b] eqn:E; [discriminate|].
  intros H. inversion H. split; [reflexivity | discriminate].
Qed.

(** A match has a scheme and a body of URL characters, and it is what the
    text starts with. *)
Lemma match_url_inv (s u : string) :
  match_url s = Some u -> url_shaped u /\ prefix u s = true.
Proof.
  unfold match_url.
  destruct (strip "https://" s) as [rest|] eqn:E.
  - intros H. apply url_after_inv in H. destruct H as [-> Hne].
    apply strip_app in E. subst s. split.
    + exists (take_url rest). split; [right; reflexivity|].
      split; [exact Hne | apply take_url_all].
    + apply prefix_app_mono, take_url_prefix.
  - destruct (strip "http://" s) as [rest|] eqn:E'; [|discriminate].
    intros H. apply url_after_inv in H. destruct H as [-> Hne].
    apply strip_app in E'. subst s. split.
    + exists (take_url rest). split; [left; reflexivity|].
      split; [exact Hne | apply take_url_all].
    + apply prefix_app_mono, take_url_prefix.
Qed.

Lemma contains_prefix (u s : string) : prefix u s = true -> contains u s = true.
Proof. intros H. destruct s; cbn [contains]; rewrite H; reflexivity. Qed.

Lemma contains_cons (u : string) (c : ascii) (s : string) :
  contains u s = true -> contains u (String c s) = true.
Proof. intros H. cbn [contains]. rewrite H. apply orb_true_r. Qed.

Lemma scan_urls_sound (s : string) (skip : nat) :
  Forall (fun u => url_shaped u /\ contains u s = true) (scan_urls skip s).
Proof.
  revert skip. induction s as [|c s IH]; intros skip; cbn [scan_urls];
    [constructor|].
  assert (Lift : forall k,
            Forall (fun u => url_shaped u /\ contains u (String c s) = true)
                   (scan_urls k s)).
  { intros k. eapply Forall_impl; [|apply (IH k)].
    intros u [Hu Hc]. split; [exact Hu | apply contains_cons, Hc]. }
  destruct skip as [|k]; [|apply Lift].
  destruct (match_url (String c s)) as [u|] eqn:E; [|apply Lift].
  apply match_url_inv in E. destruct E as [Hu Hp].
  constructor; [|apply Lift].
  split; [exact Hu | apply contains_prefix, Hp].
Qed.

(** X10.  Whatever the text, each string [find_urls] returns is
    [http://] or [https://] followed by at least one character, all of
    them characters the pattern admits (so no space, quote, [#] or [~]),
    and it occurs in the text. *)
Theorem find_urls_sound (text : string) :
  Forall (fun u => url_shaped u /\ contains u text = true) (find_urls text).
Proof. unfold find_urls. apply scan_urls_sound. Qed.

Lemma scan_urls_skipped (s : string) (skip : nat) :
  (String.length s <= skip)%nat -> scan_urls skip s = [].
Proof.
  revert skip. induction s as [|c s IH]; intros skip H; simpl; [reflexivity|].
  destruct skip as [|k]; simpl in H; [lia|]. apply IH. lia.
Qed.

Lemma length_app_string (a b : string) :
  String.length (a ++ b)%string = (String.length a + String.length b)%nat.
Proof. induction a as [|c a IH]; simpl; [reflexivity | rewrite IH; reflexivity]. Qed.

(** X11.  A text that is one URL, a scheme followed by a non-empty body
    of admitted characters, is found whole, and alone. *)
Theorem find_urls_lone_url (body : string) :
  body <> EmptyString ->
  all_chars url_char body = true ->
  find_urls ("https://" ++ body)%string = [("https://" ++ body)%string] /\
  find_urls ("http://" ++ body)%string = [("http://" ++ body)%string].
Proof.
  intros Hne Hall.
  assert (Ha : forall scheme, url_after scheme body = Some (scheme ++ body)%string).
  { intros scheme. unfold url_after. rewrite (take_url_id body Hall).
    destruct body; [congruence | reflexivity]. }
  split.
  - unfold find_urls.
    change (scan_urls 0 ("https://" ++ body)%string)
      with (match match_url ("https://" ++ body)%string with
            | Some url => url :: scan_urls (String.length url - 1)
                                   ("ttps://" ++ body)%string
            | None => scan_urls 0 ("ttps://" ++ body)%string
            end).
    assert (Hm : match_url ("https://" ++ body)%string
                 = Some ("https://" ++ body)%string).
    { unfold match_url. simpl strip. apply Ha. }
    rewrite Hm. f_equal. apply scan_urls_skipped.
    rewrite !length_app_string. simpl. lia.
  - unfold find_urls.
    change (scan_urls 0 ("http://" ++ body)%string)
      with (match match_url ("http://" ++ body)%string with
            | Some url => url :: scan_urls (String.length url - 1)
                                   ("ttp://" ++ body)%string
            | None => scan_urls 0 ("ttp://" ++ body)%string
            end).
    assert (Hm : match_url ("http://" ++ body)%string
                 = Some ("http://" ++ body)%string).
    { unfold match_url. simpl strip. apply Ha. }
    rewrite Hm. f_equal. apply scan_urls_skipped.
    rewrite !length_app_string. simpl. lia.
Qed.

Lemma find_urls_lone_url_witness :
  find_urls "https://t.me/moondev" = ["https://t.me/moondev"] /\
  find_urls "http://t.me/moondev" = ["http://t.me/moondev"].
Proof.
  apply (find_urls_lone_url "t.me/moondev"); [discriminate | reflexivity].
Defined.

(** ** The links and the rug-pull flag of [token_overview] *)

Lemma link_dicts_sound (P : string -> Prop) (urls : list string) :
  Forall P urls ->
  Forall (fun kv => link_labelled kv /\ P (snd kv)) (link_dicts urls).
Proof.
  induction 1 as [|url urls Hu _ IH]; simpl; [constructor|].
  destruct (contains "t.me" url) eqn:E1.
  { constructor; [|exact IH]. split; [left; auto | exact Hu]. }
  destruct (contains "twitter.com" url) eqn:E2.
  { constructor; [|exact IH]. split; [right; left; auto | exact Hu]. }
  destruct (contains "youtube" url) eqn:E3; simpl; [exact IH|].
  constructor; [|exact IH]. split; [right; right; auto | exact Hu].
Qed.

(** X12.  The links lines 106-116 build: each is labelled [telegram],
    [twitter] or [website]; a URL that mentions [t.me] anywhere is a
    telegram link, also when it mentions [twitter.com]; a website link
    mentions none of [t.me], [twitter.com] and [youtube] (a URL that
    mentions [youtube] only is dropped); and each URL is shaped as
    [find_urls] shapes them.  When [overview_data] has no [extensions],
    or has [None] or an empty dictionary there, the list is empty and
    nothing is raised. *)
Theorem overview_links_sound (overview_data : json_value) :
  (forall links,
     overview_links overview_data = inr links ->
     Forall (fun kv => link_labelled kv /\ url_shaped (snd kv)) links) /\
  (forall kvs,
     overview_data = JDict kvs ->
     lookup "extensions" kvs = None \/
     lookup "extensions" kvs = Some JNone \/
     lookup "extensions" kvs = Some (JDict []) ->
     overview_links overview_data = inr []).
Proof.
  split.
  - intros links. unfold overview_links.
    destruct (description_of overview_data) as [e|text]; simpl; [discriminate|].
    intros H. inversion H; subst; clear H.
    apply link_dicts_sound.
    eapply Forall_impl; [|apply (find_urls_sound text)].
    intros u [Hu _]. exact Hu.
  - intros kvs -> H. unfold overview_links, description_of. simpl.
    destruct H as [-> | [-> | ->]]; reflexivity.
Qed.

Lemma overview_links_sound_witness :
  Forall (fun kv => link_labelled kv /\ url_shaped (snd kv))
    [("telegram", "https://t.me/x"); ("website", "http://site.io");
     ("twitter", "https://twitter.com/a")] /\
  overview_links (JDict [("extensions", JNone)]) = inr [].
Proof.
  split.
  - apply (proj1 (overview_links_sound
       (JDict [("extensions",
                JDict [("description",
                        JStr "tg https://t.me/x web http://site.io yt https://youtube.com/c tw https://twitter.com/a")])]))).
    vm_compute. reflexivity.
  - apply (proj2 (overview_links_sound (JDict [("extensions", JNone)]))
             [("extensions", JNone)]); [reflexivity|].
    right; left; reflexivity.
Defined.

Lemma any_below_numeric (items : list (string * json_value)) :
  forallb (fun kv => numeric_or_none (snd kv)) items = true ->
  any_below items = inr (existsb (fun kv => plunges (snd kv)) items).
Proof.
  induction items as [|[k v] items IH]; simpl; [reflexivity|].
  intros H. apply andb_true_iff in H. destruct H as [Hv Hrest].
  specialize (IH Hrest).
  destruct v; simpl in *; try discriminate; try exact IH;
    match goal with |- context [if ?c then _ else _] =>
      destruct c; simpl; [reflexivity | exact IH] end.
Qed.

(** X13.  When the values under the keys that mention [priceChange] are
    numbers or [None], the rug-pull test raises nothing, and it is true
    exactly when one of those values is a number strictly below -80.
    [None] values are passed over, and what sits under other keys is not
    looked at, whatever it is. *)
Theorem rug_pull_iff (items : list (string * json_value)) :
  forallb (fun kv => numeric_or_none (snd kv)) (price_changes items) = true ->
  exists flag : bool,
    rug_pull items = inr flag /\
    (flag = true <->
     exists key value,
       In (key, value) items /\ contains "priceChange" key = true /\
       plunges value = true).
Proof.
  intros H. unfold rug_pull. rewrite (any_below_numeric _ H).
  eexists. split; [reflexivity|]. rewrite existsb_exists. split.
  - intros ([k v] & Hin & Hp). unfold price_changes in Hin.
    apply filter_In in Hin. destruct Hin as [Hin Hk]. exists k, v. auto.
  - intros (k & v & Hin & Hk & Hp). exists (k, v). split; [|exact Hp].
    unfold price_changes. apply filter_In. auto.
Qed.

Lemma rug_pull_iff_witness :
  exists flag : bool,
    rug_pull [("priceChange1hPercent", JNone);
              ("symbol", JStr "x");
              ("priceChange24hPercent", JFloat (-85.5))] = inr flag /\
    (flag = true <->
     exists key value,
       In (key, value) [("priceChange1hPercent", JNone);
                        ("symbol", JStr "x");
                        ("priceChange24hPercent", JFloat (-85.5))] /\
       contains "priceChange" key = true /\ plunges value = true).
Proof.
  apply (rug_pull_iff [("priceChange1hPercent", JNone);
                       ("symbol", JStr "x");
                       ("priceChange24hPercent", JFloat (-85.5))]).
  vm_compute. reflexivity.
Defined.

(** ** The trade percentages of [token_overview] *)

Lemma finite_or_overflow_not_zde (x : spec_float) :
  finite_or_overflow x <> inl ZeroDivisionError.
Proof. destruct x; discriminate. Qed.

Lemma int_to_float_not_zde (i : Z) : int_to_float i <> inl ZeroDivisionError.
Proof. apply finite_or_overflow_not_zde. Qed.

Lemma int_truediv_not_zde (a b : Z) :
  b <> 0 -> int_truediv a b <> inl ZeroDivisionError.
Proof.
  intros Hb. unfold int_truediv.
  destruct (Z.eqb_spec b 0); [contradiction|].
  destruct (a =? 0); [discriminate|].
  destruct (SFdiv_core_binary _ _ _ _ _ _) as [[q e] l].
  apply finite_or_overflow_not_zde.
Qed.

Lemma float_truediv_not_zde (x y : float) :
  PrimFloat.eqb y 0 = false -> float_truediv x y <> inl ZeroDivisionError.
Proof. intros H. unfold float_truediv. rewrite H. discriminate. Qed.

Lemma and_then_not_zde A B (r : exn + A) (k : A -> exn + B) :
  r <> inl ZeroDivisionError ->
  (forall a, k a <> inl ZeroDivisionError) ->
  and_then r k <> inl ZeroDivisionError.
Proof.
  intros Hr Hk. destruct r as [e|a]; simpl; [|apply Hk].
  intros H. apply Hr. inversion H. reflexivity.
Qed.

Lemma json_get_not_zde (o : json_value) (key : string) (default : json_value) :
  json_get o key default <> inl ZeroDivisionError.
Proof. destruct o; discriminate. Qed.

Lemma json_add_not_zde (a b : json_value) :
  json_add a b <> inl ZeroDivisionError.
Proof.
  unfold json_add.
  destruct (as_number a) as [[x|x]|], (as_number b) as [[y|y]|];
    try discriminate;
    try (apply and_then_not_zde; [apply int_to_float_not_zde | discriminate]);
    destruct a; try discriminate; destruct b; discriminate.
Qed.

Lemma json_mul_not_zde (a b : json_value) :
  json_mul a b <> inl ZeroDivisionError.
Proof.
  unfold json_mul.
  destruct (as_number a) as [[x|x]|], (as_number b) as [[y|y]|];
    try discriminate;
    try (apply and_then_not_zde; [apply int_to_float_not_zde | discriminate]);
    try (destruct b; discriminate); destruct a; discriminate.
Qed.

(** A truthy int is not zero; a truthy float does not equal zero. *)
Lemma truthy_int (t : json_value) (b : Z) :
  json_truth t = true -> as_number t = Some (inl b) -> b <> 0.
Proof.
  destruct t; simpl; try discriminate; intros Ht H.
  - rewrite Ht in H. inversion H. discriminate.
  - inversion H; subst. apply negb_true_iff in Ht. apply Z.eqb_neq, Ht.
Qed.

Lemma truthy_float (t : json_value) (y : float) :
  json_truth t = true -> as_number t = Some (inr y) ->
  PrimFloat.eqb y 0 = false.
Proof.
  destruct t; simpl; try discriminate; intros Ht H; inversion H; subst.
  apply negb_true_iff, Ht.
Qed.

(** Dividing by a truthy total raises no [ZeroDivisionError], provided an
    int total comes with an int count. *)
Lemma json_truediv_guarded (x t : json_value) :
  json_truth t = true ->
  (forall b, as_number t = Some (inl b) -> exists a, as_number x = Some (inl a)) ->
  json_truediv x t <> inl ZeroDivisionError.
Proof.
  intros Ht Hint. unfold json_truediv.
  destruct (as_number t) as [[b|y]|] eqn:Et.
  - destruct (Hint b eq_refl) as [a ->].
    apply and_then_not_zde; [|discriminate].
    apply int_truediv_not_zde, (truthy_int t b Ht Et).
  - pose proof (truthy_float t y Ht Et) as Hy.
    destruct (as_number x) as [[a|x']|]; [| |discriminate].
    + apply and_then_not_zde; [apply int_to_float_not_zde | intros x'].
      apply and_then_not_zde; [apply float_truediv_not_zde, Hy | discriminate].
    + apply and_then_not_zde; [apply float_truediv_not_zde, Hy | discriminate].
  - destruct (as_number x) as [[a|x']|]; discriminate.
Qed.

(** An int sum has int terms. *)
Lemma json_add_int_inv (x y t : json_value) (b : Z) :
  json_add x y = inr t -> as_number t = Some (inl b) ->
  (exists a, as_number x = Some (inl a)) /\
  (exists a, as_number y = Some (inl a)).
Proof.
  unfold json_add.
  destruct (as_number x) as [[a|f]|] eqn:Ex,
           (as_number y) as [[a'|f']|] eqn:Ey; simpl; intros H Ht.
  - eauto.
  - destruct (int_to_float a); simpl in H; inversion H; subst; discriminate.
  - destruct x; try discriminate; destruct y; try discriminate;
      inversion H; subst; discriminate.
  - destruct (int_to_float a'); simpl in H; inversion H; subst; discriminate.
  - inversion H; subst; discriminate.
  - destruct x; try discriminate; destruct y; try discriminate;
      inversion H; subst; discriminate.
  - destruct x; try discriminate; destruct y; try discriminate;
      inversion H; subst; discriminate.
  - destruct x; try discriminate; destruct y; try discriminate;
      inversion H; subst; discriminate.
  - destruct x; try discriminate; destruct y; try discriminate;
      inversion H; subst; discriminate.
Qed.

Lemma percentage_guarded (x t : json_value) :
  (forall b, as_number t = Some (inl b) -> exists a, as_number x = Some (inl a)) ->
  percentage cpython x t <> inl ZeroDivisionError.
Proof.
  intros Hint. unfold percentage.
  change (py_truth cpython t) with (json_truth t).
  destruct (json_truth t) eqn:Ht; [|discriminate].
  apply and_then_not_zde; [|intros q; apply json_mul_not_zde].
  apply json_truediv_guarded; assumption.
Qed.

(** X14.  Lines 57-74 never divide by zero: whatever the decoded body
    holds under [buy1h] and [sell1h], the test [if total_trades] keeps
    [ZeroDivisionError] out, for ints, bools and floats alike.  And when
    the total is zero (or otherwise falsy), both percentages are the int
    0. *)
Theorem percentages_guarded (resp : response json_value) :
  (json resp <> inl ZeroDivisionError ->
   overview_head cpython resp <> inl ZeroDivisionError) /\
  (forall trade1h buy_percentage sell_percentage,
     overview_head cpython resp
     = inr (trade1h, buy_percentage, sell_percentage) ->
     json_truth trade1h = false ->
     buy_percentage = JInt 0 /\ sell_percentage = JInt 0).
Proof.
  split.
  - intros Hj. unfold overview_head.
    apply and_then_not_zde; [exact Hj | intros body].
    apply and_then_not_zde; [apply json_get_not_zde | intros data].
    apply and_then_not_zde; [apply json_get_not_zde | intros buy1h].
    apply and_then_not_zde; [apply json_get_not_zde | intros sell1h].
    change (py_add cpython buy1h sell1h) with (json_add buy1h sell1h).
    destruct (json_add buy1h sell1h) as [e|t] eqn:Eadd.
    { simpl. intros H. inversion H; subst.
      exact (json_add_not_zde buy1h sell1h Eadd). }
    simpl.
    apply and_then_not_zde; [|intros bp].
    { apply percentage_guarded. intros b Hb.
      apply (json_add_int_inv _ _ _ _ Eadd Hb). }
    apply and_then_not_zde; [|discriminate].
    apply percentage_guarded. intros b Hb.
    apply (json_add_int_inv _ _ _ _ Eadd Hb).
  - intros t bp sp. unfold overview_head.
    destruct (json resp) as [e|body]; simpl; [discriminate|].
    destruct (json_get body "data" (JDict [])) as [e|data]; simpl;
      [discriminate|].
    destruct (json_get data "buy1h" (JInt 0)) as [e|buy1h]; simpl;
      [discriminate|].
    destruct (json_get data "sell1h" (JInt 0)) as [e|sell1h]; simpl;
      [discriminate|].
    destruct (json_add buy1h sell1h) as [e|t'] eqn:Eadd; simpl;
      [discriminate|].
    unfold percentage.
    change (py_truth cpython t') with (json_truth t').
    destruct (json_truth t') eqn:Ht; simpl.
    + destruct (json_truediv buy1h t') as [e|q]; simpl; [discriminate|].
      destruct (json_mul q (JInt 100)) as [e|bp']; simpl; [discriminate|].
      destruct (json_truediv sell1h t') as [e|q']; simpl; [discriminate|].
      destruct (json_mul q' (JInt 100)) as [e|sp']; simpl; [discriminate|].
      intros H. inversion H; subst. congruence.
    + intros H. inversion H; subst. auto.
Qed.

Lemma percentages_guarded_witness :
  overview_head cpython (ok_response (JDict []))
  <> inl ZeroDivisionError /\
  overview_head cpython (ok_response (JDict [])) = inr (JInt 0, JInt 0, JInt 0).
Proof.
  split.
  - apply (proj1 (percentages_guarded (ok_response (JDict [])))).
    discriminate.
  - reflexivity.
Defined.

(** ** Buy mode at the filled level itself *)

Section Boundary.

Context {W : Type}.
Variable cfg : config.
Variable n : pymodule W.

(** X15.  Both tests of buy mode against [.97 * usd_size] are strict.
    So a position value exactly at that level is neither slept on nor
    bought for: [bot] prints the total and returns at once, without the
    [position filled] line and its 7867678-second sleep, and without an
    order. *)
Theorem at_filled_level_no_sleep (fuel : nat) (s s1 : state W) :
  refresh cfg n
    (emit (Print "opening buying position" [])
       (emit (Print "bot successfully closed position..." []) s))
    = (Ok tt, s1) ->
  fgt (pos_usd (vars s1)) (filled_level cfg) = false ->
  flt (pos_usd (vars s1)) (filled_level cfg) = false ->
  bot cfg n 1 (S fuel) s
  = (Ok tt,
     logged [Print "position filled of {} total: ${}"
               [VStr (last4 (symbol cfg)); VFloat (pos_usd (vars s1))];
             Print "COMPLETE THANKS MOON DEV!" []] s1) /\
  orders (log s1) = orders (log s) /\
  elapsed (log s1) = elapsed (log s).
Proof.
  intros Hr Hgt Hlt.
  assert (Hbody : open_body cfg n (S fuel)
                    (emit (Print "bot successfully closed position..." []) s)
                  = (Break,
                     emit (Print "position filled of {} total: ${}"
                             [VStr (last4 (symbol cfg));
                              VFloat (pos_usd (vars s1))]) s1)).
  { unfold open_body, buy_loop, report_filled. rewrite bind_print.
    rewrite (bind_ok _ _ _ _ _ _ tt Hr).
    unfold bind at 1. unfold when at 1. rewrite Hgt.
    rewrite (bind_ok _ _ _ _ _ _ tt (while_done _ _ _ _ Hlt)).
    reflexivity. }
  split; [|split].
  - rewrite (bot_buy_mode_break cfg n fuel s _ Hbody).
    unfold logged, emit; simpl. rewrite <- app_assoc. reflexivity.
  - destruct (refresh_ok cfg n _ _ Hr) as (Hl & _). rewrite Hl. simpl.
    rewrite !orders_app. simpl. rewrite !app_nil_r. reflexivity.
  - destruct (refresh_ok cfg n _ _ Hr) as (Hl & _). rewrite Hl. simpl.
    rewrite !elapsed_app. simpl. lia.
Qed.

End Boundary.

Lemma at_filled_level_no_sleep_witness :
  let m := test_module 1 never in
  let s := start (0.97 * 5)%float in
  let s1 := snd (refresh config_py m
                   (emit (Print "opening buying position" [])
                      (emit (Print "bot successfully closed position..." [])
                         s))) in
  bot config_py m 1 1 s
  = (Ok tt,
     logged [Print "position filled of {} total: ${}"
               [VStr (last4 (symbol config_py)); VFloat (pos_usd (vars s1))];
             Print "COMPLETE THANKS MOON DEV!" []] s1) /\
  orders (log s1) = orders (log s) /\
  elapsed (log s1) = elapsed (log s).
Proof.
  intros m s s1.
  apply (at_filled_level_no_sleep config_py m 0 s s1); vm_compute; reflexivity.
Defined.

(** ** The script as a whole *)

Section Script.

Context {W : Type}.
Variable cfg : config.
Variable n : pymodule W.
Variable buy : Z.

(** X17.  The script never comes to an end of its own: either the first,
    unguarded call of [bot] raises and the exception leaves the script, or
    the script is still running however long it is followed. *)
Theorem script_never_returns (fuel : nat) (s : state W) :
  fst (main cfg n buy fuel s) = Timeout \/
  exists e s1,
    bot cfg n buy fuel s = (Raise e, s1) /\
    main cfg n buy fuel s = (Raise e, s1).
Proof.
  unfold main.
  pose proof (bot_unbroken cfg n buy fuel s) as Hb.
  destruct (bot cfg n buy fuel s) as [[[]| |e|] s1] eqn:E.
  - left. rewrite (bind_ok _ _ _ _ _ _ tt E).
    unfold bind at 1, schedule_every.
    unfold scheduler. apply forever. intros s'. apply tick_survives.
  - exfalso. apply Hb. reflexivity.
  - right. exists e, s1. split; [reflexivity|].
    apply bind_raise, E.
  - left. unfold bind. rewrite E. reflexivity.
Qed.

End Script.

Lemma script_stops_at_first_call_witness :
  fst (main config_py (nice_funcs (venue 1 never)) 1 1 (start 0))
  = Raise (AttributeError "nice_funcs" "get_position").
Proof.
  apply (script_stops_at_first_call venue_state config_py (venue 1 never) 1 0
           (start 0)).
  right; left; reflexivity.
Defined.

(** X16.  With [nice_funcs.py] as it is, the script does not get past
    line 195 in a trading mode (0, 1 or 5): the first call of [bot],
    outside any [try], raises the [AttributeError] of
    [n.get_position]; no job has been scheduled, no helper reached, no
    order sent and no second slept. *)
Theorem script_ends_on_first_call (W : Type) (cfg : config)
    (remote : helpers W) (buy : Z) (fuel : nat) (s : state W) :
  buy = 0 \/ buy = 1 \/ buy = 5 ->
  exists s',
    main cfg (nice_funcs remote) buy (S fuel) s
    = (Raise (AttributeError "nice_funcs" "get_position"), s') /\
    next_run s' = next_run s /\ world s' = world s /\
    orders (log s') = orders (log s) /\
    elapsed (log s') = elapsed (log s).
Proof.
  intros Hmode. unfold main.
  assert (Hm : binds (names (nice_funcs remote)) "get_position" = false)
    by reflexivity.
  destruct Hmode as [-> | [-> | ->]]; eexists.
  - split.
    + apply bind_raise. apply bot_close_raise.
      apply fetch_pos_missing, Hm.
    + simpl. rewrite !orders_app, !elapsed_app. simpl.
      rewrite !app_nil_r. repeat split; lia.
  - split.
    + apply bind_raise. apply bot_buy_raise.
      apply refresh_raise, fetch_raise_pos, fetch_pos_missing, Hm.
    + simpl. rewrite !orders_app, !elapsed_app. simpl.
      rewrite !app_nil_r. repeat split; lia.
  - split.
    + apply bind_raise. apply bot_mm_raise.
      apply refresh_raise, fetch_raise_pos, fetch_pos_missing, Hm.
    + simpl. rewrite !orders_app, !elapsed_app. simpl.
      rewrite !app_nil_r. repeat split; lia.
Qed.

Lemma script_ends_on_first_call_witness :
  exists s',
    main config_py (nice_funcs (venue 1 never)) 5 1 (start 0)
    = (Raise (AttributeError "nice_funcs" "get_position"), s') /\
    next_run s' = next_run (start 0) /\ world s' = world (start 0) /\
    orders (log s') = orders (log (start 0)) /\
    elapsed (log s') = elapsed (log (start 0)).
Proof.
  apply (script_ends_on_first_call venue_state config_py (venue 1 never) 5 0
           (start 0)).
  right; right; reflexivity.
Defined.
